(** * Computer-Aided Dispatch system: a shallow embedding of [cad_system.py]

    The program is a Flask + Flask-SocketIO application over one SQLite
    file.  Every handler opens a fresh connection, runs one or two SQL
    statements, commits, and emits Socket.IO events.  The embedding keeps
    that shape:

    - JSON request bodies are dictionaries [gmap string json];
    - the four entity tables are lists of rows in rowid order, each row a
      record whose fields are the columns of [init_db];
    - the SQL statements are functions on the database that enforce the
      NOT NULL and UNIQUE constraints of the schema;
    - handlers are written in a small state-and-exception monad over a
      [world] made of the committed database and the trace of effects
      (commits and emitted events), so that what is persisted, what is
      reported and in which order can all be stated;
    - the sources of nondeterminism ([uuid.uuid4()], [datetime.now()],
      SQLite's CURRENT_TIMESTAMP) are read from an environment [env]. *)

From Stdlib Require Import ZArith NArith Ascii String List Sorted.
From Stdlib Require Import OrderedTypeEx.
From stdpp Require Import base option list sorting strings pretty gmap.

Local Open Scope string_scope.
Local Open Scope list_scope.
Local Set Warnings "-clear-no-such-hyp".

(** ** JSON values and Python's view of them *)

(** What [request.json] and a Socket.IO payload can hold.  JSON numbers are
    the integers; a float is bound by [sqlite3] as a REAL whose text form
    needs floating point, and is outside this model. *)
#[warnings="-register-all"]
Inductive json : Type :=
| JNull
| JBool (b : bool)
| JInt (z : Z)
| JStr (s : string)
| JArr (l : list json)
| JObj (l : list (string * json)).

(** A request body or event payload: a Python [dict] with string keys. *)
Abbreviation dict := (gmap string json).

(** Python truthiness, as used by [not data.get('number')]. *)
Definition truthy (v : json) : bool :=
  match v with
  | JNull => false
  | JBool b => b
  | JInt z => negb (z =? 0)%Z
  | JStr s => negb (String.eqb s "")
  | JArr l => negb (Nat.eqb (length l) 0)
  | JObj l => negb (Nat.eqb (length l) 0)
  end.

(** [data.get(k, default)]. *)
Definition get (data : dict) (k : string) (default : json) : json :=
  match data !! k with
  | Some v => v
  | None => default
  end.

(** ** Exceptions *)

(** The two kinds of constraint the schema declares. *)
Inductive violation : Type :=
| NotNullFailed   (* NOT NULL constraint failed *)
| UniqueFailed.   (* UNIQUE constraint failed (PRIMARY KEY included) *)

Inductive exn : Type :=
| KeyError (k : string)             (* data['k'] on an absent key *)
| InterfaceError                    (* sqlite3: unsupported parameter type
                                       (ProgrammingError from Python 3.11) *)
| OverflowError                     (* Python int too large for INTEGER *)
| IntegrityError (c : violation).   (* sqlite3.IntegrityError *)

Inductive result (A : Type) : Type :=
| Returned (a : A)
| Raised (e : exn).
Arguments Returned {A} a.
Arguments Raised {A} e.

(** ** SQLite parameter binding and column affinity *)

Inductive sqlparam : Type :=
| PNull
| PInt (z : Z)
| PText (s : string).

(** What the [sqlite3] module does with one Python value given for a [?]:
    [None], [int] (with [bool] a subclass of it) and [str] are adapted,
    lists and dicts are refused, and an integer must fit 64 bits. *)
Definition bind (v : json) : result sqlparam :=
  match v with
  | JNull => Returned PNull
  | JBool b => Returned (PInt (if b then 1 else 0))
  | JInt z =>
      if ((- 2 ^ 63 <=? z) && (z <? 2 ^ 63))%Z then Returned (PInt z)
      else Raised OverflowError
  | JStr s => Returned (PText s)
  | JArr _ => Raised InterfaceError
  | JObj _ => Raised InterfaceError
  end.

(** A column declared TEXT has TEXT affinity: an integer is stored as its
    decimal text.  A cell of such a column is NULL or a text. *)
Definition text_affinity (p : sqlparam) : option string :=
  match p with
  | PNull => None
  | PInt z => Some (pretty z)
  | PText s => Some s
  end.

Definition bind_text (v : json) : result (option string) :=
  match bind v with
  | Returned p => Returned (text_affinity p)
  | Raised e => Raised e
  end.

(** ** The schema of [init_db] *)

(** A cell holding CURRENT_TIMESTAMP.  SQLite renders it as the fixed-width
    text 'YYYY-MM-DD HH:MM:SS', whose byte order is chronological order; the
    model keeps the number of seconds instead of the text. *)
Definition timestamp := N.

(** Table [units].  [unit_number] and [unit_type] are NOT NULL; the other
    columns may be NULL ([None]).  Column [id] is [unit_id] here, [status]
    is [unit_status] and [location] is [unit_location]. *)
Record unit_row : Type := {
  unit_id : string;
  unit_number : string;
  unit_type : string;
  unit_status : option string;
  unit_location : option string;
  assigned_call_id : option string;
  last_update : option timestamp
}.

(** Table [calls].  [call_number], [call_type] and [location] are NOT
    NULL. *)
Record call_row : Type := {
  call_id : string;
  call_number : string;
  call_priority : option string;
  call_type : string;
  call_location : string;
  call_description : option string;
  call_status : option string;
  call_created_at : option timestamp;
  call_updated_at : option timestamp;
  assigned_unit_id : option string;
  reporter_name : option string;
  reporter_phone : option string
}.

(** Table [bolos].  [expires_at] is declared TIMESTAMP; the model stores
    the bound parameter as given and does not apply the NUMERIC affinity
    that would turn a numeric-looking text into a number. *)
Record bolo_row : Type := {
  bolo_id : string;
  title : string;
  bolo_description : string;
  bolo_type : string;
  bolo_priority : option string;
  bolo_status : option string;
  bolo_created_at : option timestamp;
  expires_at : sqlparam;
  bolo_created_by : option string
}.

(** Table [notes]. *)
Record note_row : Type := {
  note_id : string;
  note_call_id : option string;
  note_unit_id : option string;
  note_type : string;
  content : string;
  note_created_at : option timestamp;
  note_created_by : option string
}.

(** The database file: the four entity tables, rows in rowid order.  The
    read-only [status_codes] table takes no part in any mutation and is left
    out. *)
Record database : Type := {
  units : list unit_row;
  calls : list call_row;
  bolos : list bolo_row;
  notes : list note_row
}.

Definition empty_db : database :=
  {| units := []; calls := []; bolos := []; notes := [] |}.

(** ** The environment: identifiers and clocks *)

(** The fields of [datetime.now()] that [strftime('%Y%m%d')] reads (the
    year of the system clock has four digits). *)
Record datetime : Type := { year : N; month : N; day : N }.

(** What a handler draws from outside during one run: the values of its
    first and second call of [uuid.uuid4()] (128-bit integers), the local
    time of [datetime.now()], and SQLite's CURRENT_TIMESTAMP. *)
Record env : Type := {
  uuid4_first : N;
  uuid4_second : N;
  now : datetime;
  current_timestamp : timestamp
}.

Definition hex_digit (n : N) : ascii :=
  match n with
  | 0 => "0" | 1 => "1" | 2 => "2" | 3 => "3" | 4 => "4" | 5 => "5"
  | 6 => "6" | 7 => "7" | 8 => "8" | 9 => "9" | 10 => "a" | 11 => "b"
  | 12 => "c" | 13 => "d" | 14 => "e" | _ => "f"
  end%N%char.

(** ['%0<w>x' % n], for [n < 16 ^ w]. *)
Fixpoint hex_fixed (w : nat) (n : N) : string :=
  match w with
  | O => ""
  | S w' => hex_fixed w' (n / 16) +:+ String (hex_digit (n mod 16)) ""
  end.

(** ['%0<w>d' % n], for [n < 10 ^ w]; the decimal digits are the first ten
    of [hex_digit]. *)
Fixpoint dec_fixed (w : nat) (n : N) : string :=
  match w with
  | O => ""
  | S w' => dec_fixed w' (n / 10) +:+ String (hex_digit (n mod 10)) ""
  end.

(** [str(u)] for a [uuid.UUID]: the 32 hex digits of its integer, grouped
    8-4-4-4-12. *)
Definition str_uuid (u : N) : string :=
  let hex := hex_fixed 32 (u mod 2 ^ 128) in
  substring 0 8 hex +:+ "-" +:+ substring 8 4 hex +:+ "-" +:+
  substring 12 4 hex +:+ "-" +:+ substring 16 4 hex +:+ "-" +:+
  substring 20 12 hex.

Definition upper_ascii (c : ascii) : ascii :=
  let n := N_of_ascii c in
  if ((97 <=? n) && (n <=? 122))%N then ascii_of_N (n - 32) else c.

(** [s.upper()], on ASCII text. *)
Fixpoint upper (s : string) : string :=
  match s with
  | EmptyString => EmptyString
  | String c s' => String (upper_ascii c) (upper s')
  end.

(** [d.strftime('%Y%m%d')], the year on four digits. *)
Definition strftime_Ymd (d : datetime) : string :=
  dec_fixed 4 (year d) +:+ dec_fixed 2 (month d) +:+ dec_fixed 2 (day d).

(** [f"CALL-{datetime.now().strftime('%Y%m%d')}-{str(uuid.uuid4())[:4].upper()}"] *)
Definition make_call_number (d : datetime) (u : N) : string :=
  "CALL-" +:+ strftime_Ymd d +:+ "-" +:+ upper (substring 0 4 (str_uuid u)).

(** ** SQL statements *)

Global Instance result_ret : MRet result := fun _ a => Returned a.
Global Instance result_bind : MBind result := fun _ _ f m =>
  match m with
  | Returned a => f a
  | Raised e => Raised e
  end.

(** A NOT NULL column refuses NULL. *)
Definition not_null (c : option string) : result string :=
  match c with
  | Some s => Returned s
  | None => Raised (IntegrityError NotNullFailed)
  end.

(** A UNIQUE (or PRIMARY KEY) column refuses a value already stored. *)
Definition unique (v : string) (stored : list string) : result () :=
  if bool_decide (v ∈ stored) then Raised (IntegrityError UniqueFailed)
  else Returned ().

(** [INSERT INTO units (id, unit_number, unit_type, status, location)
     VALUES (?, ?, ?, ?, ?)]: the parameters are bound in order, the NOT
    NULL constraints are tested before the UNIQUE ones, the columns left out
    take their defaults. *)
Definition insert_unit (ts : timestamp) (id : string)
    (number type status location : json) (db : database) : result database :=
  number ← bind_text number;
  type ← bind_text type;
  status ← bind_text status;
  location ← bind_text location;
  number ← not_null number;
  type ← not_null type;
  unique id (unit_id <$> units db);;
  unique number (unit_number <$> units db);;
  mret {| units := units db ++ [ {| unit_id := id; unit_number := number;
                                    unit_type := type; unit_status := status;
                                    unit_location := location;
                                    assigned_call_id := None;
                                    last_update := Some ts |} ];
          calls := calls db; bolos := bolos db; notes := notes db |}.

(** [UPDATE units SET status = ?, location = ?,
     last_update = CURRENT_TIMESTAMP WHERE id = ?] *)
Definition set_unit (ts : timestamp) (status location : option string)
    (u : unit_row) : unit_row :=
  {| unit_id := unit_id u; unit_number := unit_number u;
     unit_type := unit_type u; unit_status := status;
     unit_location := location; assigned_call_id := assigned_call_id u;
     last_update := Some ts |}.

Definition update_unit_where_id (ts : timestamp) (status location : json)
    (id : string) (db : database) : result database :=
  status ← bind_text status;
  location ← bind_text location;
  mret {| units := (fun u => if bool_decide (unit_id u = id)
                             then set_unit ts status location u else u)
                   <$> units db;
          calls := calls db; bolos := bolos db; notes := notes db |}.

(** [SELECT id FROM units WHERE unit_number = ?] followed by [fetchone()].
    The parameter takes the TEXT affinity of the column before the
    comparison, and NULL equals nothing. *)
Definition select_unit_id_where_number (number : json) (db : database)
    : result (option string) :=
  number ← bind_text number;
  mret (match number with
        | Some n =>
            unit_id <$> head (filter (fun u => unit_number u = n) (units db))
        | None => None
        end).

(** [INSERT INTO calls (id, call_number, priority, call_type, location,
     description, status, reporter_name, reporter_phone) VALUES (...)] *)
Definition insert_call (ts : timestamp) (id number : string)
    (priority type location description status name phone : json)
    (db : database) : result database :=
  priority ← bind_text priority;
  type ← bind_text type;
  location ← bind_text location;
  description ← bind_text description;
  status ← bind_text status;
  name ← bind_text name;
  phone ← bind_text phone;
  type ← not_null type;
  location ← not_null location;
  unique id (call_id <$> calls db);;
  unique number (call_number <$> calls db);;
  mret {| units := units db;
          calls := calls db ++ [ {| call_id := id; call_number := number;
                                    call_priority := priority;
                                    call_type := type;
                                    call_location := location;
                                    call_description := description;
                                    call_status := status;
                                    call_created_at := Some ts;
                                    call_updated_at := Some ts;
                                    assigned_unit_id := None;
                                    reporter_name := name;
                                    reporter_phone := phone |} ];
          bolos := bolos db; notes := notes db |}.

(** [DELETE FROM calls WHERE id = ?].  The schema declares foreign keys to
    [calls (id)] with no ON DELETE action, and no connection turns on
    [PRAGMA foreign_keys]: the statement touches table [calls] only. *)
Definition delete_call_where_id (id : string) (db : database) : database :=
  {| units := units db;
     calls := filter (fun c => call_id c ≠ id) (calls db);
     bolos := bolos db; notes := notes db |}.

(** [INSERT INTO bolos (id, title, description, bolo_type, priority, status,
     expires_at, created_by) VALUES (...)] *)
Definition insert_bolo (ts : timestamp) (id : string)
    (ttl description type priority status expires creator : json)
    (db : database) : result database :=
  ttl ← bind_text ttl;
  description ← bind_text description;
  type ← bind_text type;
  priority ← bind_text priority;
  status ← bind_text status;
  expires ← bind expires;
  creator ← bind_text creator;
  ttl ← not_null ttl;
  description ← not_null description;
  type ← not_null type;
  unique id (bolo_id <$> bolos db);;
  mret {| units := units db; calls := calls db;
          bolos := bolos db ++ [ {| bolo_id := id; title := ttl;
                                    bolo_description := description;
                                    bolo_type := type;
                                    bolo_priority := priority;
                                    bolo_status := status;
                                    bolo_created_at := Some ts;
                                    expires_at := expires;
                                    bolo_created_by := creator |} ];
          notes := notes db |}.

(** [DELETE FROM bolos WHERE id = ?] *)
Definition delete_bolo_where_id (id : string) (db : database) : database :=
  {| units := units db; calls := calls db;
     bolos := filter (fun b => bolo_id b ≠ id) (bolos db);
     notes := notes db |}.

(** [INSERT INTO notes (id, call_id, unit_id, note_type, content,
     created_by) VALUES (...)] *)
Definition insert_note (ts : timestamp) (id : string)
    (call unit type text creator : json) (db : database) : result database :=
  call ← bind_text call;
  unit ← bind_text unit;
  type ← bind_text type;
  text ← bind_text text;
  creator ← bind_text creator;
  type ← not_null type;
  text ← not_null text;
  unique id (note_id <$> notes db);;
  mret {| units := units db; calls := calls db; bolos := bolos db;
          notes := notes db ++ [ {| note_id := id; note_call_id := call;
                                    note_unit_id := unit; note_type := type;
                                    content := text;
                                    note_created_at := Some ts;
                                    note_created_by := creator |} ] |}.

(** [DELETE FROM notes WHERE id = ?] *)
Definition delete_note_where_id (id : string) (db : database) : database :=
  {| units := units db; calls := calls db; bolos := bolos db;
     notes := filter (fun n => note_id n ≠ id) (notes db) |}.

(** ** ORDER BY *)

(** TEXT values compare bytewise (collation BINARY). *)
Definition text_le (a b : string) : Prop := String.leb a b = true.

(** NULL sorts before every value. *)
Definition cell_le (a b : option timestamp) : Prop :=
  match a, b with
  | None, _ => True
  | Some _, None => False
  | Some x, Some y => (x <= y)%N
  end.

Global Instance text_le_dec a b : Decision (text_le a b).
Proof. unfold text_le. apply _. Defined.

Global Instance cell_le_dec a b : Decision (cell_le a b).
Proof. destruct a, b; simpl; apply _. Defined.

Definition by_unit_number : relation unit_row :=
  fun u v => text_le (unit_number u) (unit_number v).

(** Descending: the later row comes first. *)
Definition by_created_at_desc {A} (created_at : A → option timestamp)
    : relation A :=
  fun x y => cell_le (created_at y) (created_at x).

(** The sort that serves an ORDER BY.  SQL leaves the order of rows with
    equal keys open; the model takes the one of [merge_sort], which is not
    the one SQLite gives.  What is proved of a listing holds for every
    order of the ties, or is stated where no tie can be. *)
Definition order_by {A} (R : relation A) `{!∀ x y, Decision (R x y)}
    (rows : list A) : list A :=
  merge_sort R rows.

(** [SELECT * FROM units ORDER BY unit_number] *)
Definition select_units (db : database) : list unit_row :=
  order_by by_unit_number (units db).

(** [SELECT * FROM calls ORDER BY created_at DESC] *)
Definition select_calls (db : database) : list call_row :=
  order_by (by_created_at_desc call_created_at) (calls db).

(** [SELECT * FROM bolos ORDER BY created_at DESC] *)
Definition select_bolos (db : database) : list bolo_row :=
  order_by (by_created_at_desc bolo_created_at) (bolos db).

(** [SELECT * FROM notes ORDER BY created_at DESC] *)
Definition select_notes (db : database) : list note_row :=
  order_by (by_created_at_desc note_created_at) (notes db).

(** ** Effects *)

(** The text of an ['error'] event of [handle_add_unit]. *)
Inductive error_message : Type :=
| RequiredFields                (* 'Unit number and type are required' *)
| AlreadyExists (number : json) (* 'Unit with number ... already exists. ...' *)
| ErrorAdding (e : exn).        (* 'Error adding unit: ' followed by str(e) *)

(** The body of an emitted event. *)
Inductive payload : Type :=
| Notice (action key id : string)   (* {'action': action, key: id} *)
| UnitsData (rows : list unit_row)
| CallsData (rows : list call_row)
| BolosData (rows : list bolo_row)
| NotesData (rows : list note_row)
| Error (m : error_message)         (* {'message': ...} of an 'error' *)
| Status (message : string).        (* {'message': ...} of a 'status' *)

(** Who receives an event: every connected client, or only the client whose
    message is being handled. *)
Inductive audience : Type := Everyone | Caller.

Inductive effect : Type :=
| Commit (db : database)
| Emit (to : audience) (event : string) (p : payload).

(** The committed content of the database file and what has happened so
    far, oldest first. *)
Record world : Type := { committed : database; trace : list effect }.

Definition M (A : Type) : Type := world → result A * world.

Global Instance M_ret : MRet M := fun _ a w => (Returned a, w).
Global Instance M_bind : MBind M := fun _ _ f m w =>
  match m w with
  | (Returned a, w') => f a w'
  | (Raised e, w') => (Raised e, w')
  end.

Global Instance M_fmap : FMap M := fun _ _ f m w =>
  match m w with
  | (Returned a, w') => (Returned (f a), w')
  | (Raised e, w') => (Raised e, w')
  end.

Definition raise {A} (e : exn) : M A := fun w => (Raised e, w).

(** [try: m  except Exception as e: h e] *)
Definition try_except {A} (m : M A) (h : exn → M A) : M A := fun w =>
  match m w with
  | (Returned a, w') => (Returned a, w')
  | (Raised e, w') => h e w'
  end.

(** [get_db()]: a new connection sees the committed database. *)
Definition get_db : M database := fun w => (Returned (committed w), w).

(** [cursor.execute(stmt, params)] on a connection whose view is [conn]:
    the view after the statement, or the exception of its failure. *)
Definition execute {A} (stmt : database → result A) (conn : database) : M A :=
  fun w => (stmt conn, w).

(** [conn.commit()] *)
Definition commit (conn : database) : M () := fun w =>
  (Returned (), {| committed := conn; trace := trace w ++ [Commit conn] |}).

Definition emit_to (to : audience) (event : string) (p : payload) : M () :=
  fun w => (Returned (),
            {| committed := committed w;
               trace := trace w ++ [Emit to event p] |}).

(** [socketio.emit(event, p)] outside a Socket.IO handler: to all clients. *)
Definition socketio_emit : string → payload → M () := emit_to Everyone.

(** [emit(event, p, broadcast=...)] inside a Socket.IO handler. *)
Definition emit (event : string) (p : payload) (broadcast : bool) : M () :=
  emit_to (if broadcast then Everyone else Caller) event p.

(** [data[k]] *)
Definition subscript (data : dict) (k : string) : M json :=
  match data !! k with
  | Some v => mret v
  | None => raise (KeyError k)
  end.

(** ** The request/response channel (Flask routes) *)

(** What [jsonify] is given. *)
Inductive response : Type :=
| Created (id message : string)
| CreatedCall (id number message : string)
| Message (message : string)
| Units (rows : list unit_row)
| Calls (rows : list call_row)
| Bolos (rows : list bolo_row)
| Notes (rows : list note_row).

Definition get_units : M response :=
  conn ← get_db;
  mret (Units (select_units conn)).

Definition create_unit (e : env) (data : dict) : M response :=
  let unit_id := str_uuid (uuid4_first e) in
  conn ← get_db;
  number ← subscript data "unit_number";
  type ← subscript data "unit_type";
  conn ← execute (insert_unit (current_timestamp e) unit_id number type
                    (get data "status" (JStr "Available"))
                    (get data "location" (JStr ""))) conn;
  commit conn;;
  socketio_emit "unit_update" (Notice "created" "unit_id" unit_id);;
  mret (Created unit_id "Unit created successfully").

Definition update_unit (e : env) (unit_id : string) (data : dict)
    : M response :=
  conn ← get_db;
  status ← subscript data "status";
  conn ← execute (update_unit_where_id (current_timestamp e) status
                    (get data "location" (JStr "")) unit_id) conn;
  commit conn;;
  socketio_emit "unit_update" (Notice "updated" "unit_id" unit_id);;
  mret (Message "Unit updated successfully").

Definition get_calls : M response :=
  conn ← get_db;
  mret (Calls (select_calls conn)).

Definition create_call (e : env) (data : dict) : M response :=
  let call_id := str_uuid (uuid4_first e) in
  let call_number := make_call_number (now e) (uuid4_second e) in
  conn ← get_db;
  priority ← subscript data "priority";
  type ← subscript data "call_type";
  location ← subscript data "location";
  conn ← execute (insert_call (current_timestamp e) call_id call_number
                    priority type location
                    (get data "description" (JStr ""))
                    (get data "status" (JStr "New"))
                    (get data "reporter_name" (JStr ""))
                    (get data "reporter_phone" (JStr ""))) conn;
  commit conn;;
  socketio_emit "call_update" (Notice "created" "call_id" call_id);;
  mret (CreatedCall call_id call_number "Call created successfully").

Definition delete_call (call_id : string) : M response :=
  conn ← get_db;
  conn ← execute (fun db => Returned (delete_call_where_id call_id db)) conn;
  commit conn;;
  socketio_emit "call_update" (Notice "deleted" "call_id" call_id);;
  mret (Message "Call deleted successfully").

Definition get_bolos : M response :=
  conn ← get_db;
  mret (Bolos (select_bolos conn)).

Definition create_bolo (e : env) (data : dict) : M response :=
  let bolo_id := str_uuid (uuid4_first e) in
  conn ← get_db;
  ttl ← subscript data "title";
  description ← subscript data "description";
  type ← subscript data "bolo_type";
  conn ← execute (insert_bolo (current_timestamp e) bolo_id
                    ttl description type
                    (get data "priority" (JStr "Medium"))
                    (get data "status" (JStr "Active"))
                    (get data "expires_at" JNull)
                    (get data "created_by" (JStr "Dispatcher"))) conn;
  commit conn;;
  socketio_emit "bolo_update" (Notice "created" "bolo_id" bolo_id);;
  mret (Created bolo_id "BOLO created successfully").

Definition delete_bolo (bolo_id : string) : M response :=
  conn ← get_db;
  conn ← execute (fun db => Returned (delete_bolo_where_id bolo_id db)) conn;
  commit conn;;
  socketio_emit "bolo_update" (Notice "deleted" "bolo_id" bolo_id);;
  mret (Message "BOLO deleted successfully").

Definition get_notes : M response :=
  conn ← get_db;
  mret (Notes (select_notes conn)).

Definition create_note (e : env) (data : dict) : M response :=
  let note_id := str_uuid (uuid4_first e) in
  conn ← get_db;
  type ← subscript data "note_type";
  text ← subscript data "content";
  conn ← execute (insert_note (current_timestamp e) note_id
                    (get data "call_id" JNull) (get data "unit_id" JNull)
                    type text
                    (get data "created_by" (JStr "Dispatcher"))) conn;
  commit conn;;
  socketio_emit "note_update" (Notice "created" "note_id" note_id);;
  mret (Created note_id "Note created successfully").

Definition delete_note (note_id : string) : M response :=
  conn ← get_db;
  conn ← execute (fun db => Returned (delete_note_where_id note_id db)) conn;
  commit conn;;
  socketio_emit "note_update" (Notice "deleted" "note_id" note_id);;
  mret (Message "Note deleted successfully").

(** ** The push channel (Socket.IO events) *)

Definition handle_connect : M () :=
  emit "status" (Status "Connected to CAD System") false.

Definition handle_disconnect : M () := mret ().

Definition handle_get_units : M () :=
  conn ← get_db;
  emit "units_data" (UnitsData (select_units conn)) false.

Definition handle_get_calls : M () :=
  conn ← get_db;
  emit "calls_data" (CallsData (select_calls conn)) false.

Definition handle_get_bolos : M () :=
  conn ← get_db;
  emit "bolos_data" (BolosData (select_bolos conn)) false.

Definition handle_get_notes : M () :=
  conn ← get_db;
  emit "notes_data" (NotesData (select_notes conn)) false.

(** The debugging [print]s of the source write to standard output only and
    are left out: the model describes the runs in which standard output can
    be written, and says nothing of a [print] that fails. *)
Definition handle_add_unit (e : env) (data : dict) : M () :=
  try_except
    (if negb (truthy (get data "number" JNull))
        || negb (truthy (get data "type" JNull))
     then emit "error" (Error RequiredFields) false
     else
       conn ← get_db;
       number ← subscript data "number";
       existing_unit ← execute (select_unit_id_where_number number) conn;
       match existing_unit with
       | Some _ =>
           number ← subscript data "number";
           emit "error" (Error (AlreadyExists number)) false
       | None =>
           let unit_id := str_uuid (uuid4_first e) in
           number ← subscript data "number";
           type ← subscript data "type";
           conn ← execute (insert_unit (current_timestamp e) unit_id
                             number type
                             (get data "status" (JStr "Available"))
                             (get data "location" (JStr ""))) conn;
           commit conn;;
           conn ← get_db;
           let units_data := select_units conn in
           emit "units_data" (UnitsData units_data) true;;
           emit "unit_update" (Notice "created" "unit_id" unit_id) true
       end)
    (fun exc => emit "error" (Error (ErrorAdding exc)) false).

Definition handle_add_call (e : env) (data : dict) : M () :=
  let call_id := str_uuid (uuid4_first e) in
  let call_number := make_call_number (now e) (uuid4_second e) in
  conn ← get_db;
  priority ← subscript data "priority";
  type ← subscript data "type";
  location ← subscript data "location";
  conn ← execute (insert_call (current_timestamp e) call_id call_number
                    priority type location
                    (get data "description" (JStr ""))
                    (get data "status" (JStr "New"))
                    (get data "reporter_name" (JStr ""))
                    (get data "reporter_phone" (JStr ""))) conn;
  commit conn;;
  conn ← get_db;
  emit "calls_data" (CallsData (select_calls conn)) true;;
  emit "call_update" (Notice "created" "call_id" call_id) true.

Definition handle_add_note (e : env) (data : dict) : M () :=
  let note_id := str_uuid (uuid4_first e) in
  conn ← get_db;
  type ← subscript data "type";
  text ← subscript data "content";
  conn ← execute (insert_note (current_timestamp e) note_id
                    (get data "call_id" JNull) (get data "unit_id" JNull)
                    type text
                    (get data "created_by" (JStr "Dispatcher"))) conn;
  commit conn;;
  conn ← get_db;
  emit "notes_data" (NotesData (select_notes conn)) true;;
  emit "note_update" (Notice "created" "note_id" note_id) true.

Definition handle_add_bolo (e : env) (data : dict) : M () :=
  let bolo_id := str_uuid (uuid4_first e) in
  conn ← get_db;
  ttl ← subscript data "title";
  description ← subscript data "description";
  type ← subscript data "type";
  conn ← execute (insert_bolo (current_timestamp e) bolo_id
                    ttl description type
                    (get data "priority" (JStr "Medium"))
                    (get data "status" (JStr "Active"))
                    (get data "expires_at" JNull)
                    (get data "created_by" (JStr "Dispatcher"))) conn;
  commit conn;;
  conn ← get_db;
  emit "bolos_data" (BolosData (select_bolos conn)) true;;
  emit "bolo_update" (Notice "created" "bolo_id" bolo_id) true.

(** ** Requests, outcomes and runs *)

(** The mutating requests a client can send, on either channel. *)
Inductive request : Type :=
| POST_units (data : dict)
| PUT_unit (unit_id : string) (data : dict)
| POST_calls (data : dict)
| DELETE_call (call_id : string)
| POST_bolos (data : dict)
| DELETE_bolo (bolo_id : string)
| POST_notes (data : dict)
| DELETE_note (note_id : string)
| add_unit (data : dict)
| add_call (data : dict)
| add_note (data : dict)
| add_bolo (data : dict).

(** What a client can tell from outside: the handler ran to its end (with
    the response of a route, if any), or it stopped on an exception. *)
Definition dispatch (e : env) (r : request) : M (option response) :=
  match r with
  | POST_units data => Some <$> create_unit e data
  | PUT_unit unit_id data => Some <$> update_unit e unit_id data
  | POST_calls data => Some <$> create_call e data
  | DELETE_call call_id => Some <$> delete_call call_id
  | POST_bolos data => Some <$> create_bolo e data
  | DELETE_bolo bolo_id => Some <$> delete_bolo bolo_id
  | POST_notes data => Some <$> create_note e data
  | DELETE_note note_id => Some <$> delete_note note_id
  | add_unit data => handle_add_unit e data;; mret None
  | add_call data => handle_add_call e data;; mret None
  | add_note data => handle_add_note e data;; mret None
  | add_bolo data => handle_add_bolo e data;; mret None
  end.

(** A handler run on its own, from a committed database and an empty
    trace. *)
Definition start (db : database) : world := {| committed := db; trace := [] |}.

Definition is_error_event (ef : effect) : bool :=
  match ef with
  | Emit _ event (Error _) => String.eqb event "error"
  | _ => false
  end.

(** A request is accepted when its handler runs to its end without
    reporting an ['error']; it is rejected when the handler raises (Flask
    answers 500, Socket.IO drops the event) or emits ['error']. *)
Definition accepted {A} (out : result A * world) : bool :=
  match out with
  | (Returned _, w) => negb (existsb is_error_event (trace w))
  | (Raised _, _) => false
  end.

(** The database after a request. *)
Definition step (db : database) (er : env * request) : database :=
  committed (dispatch er.1 er.2 (start db)).2.

(** The database after a sequence of requests, served one after the other. *)
Definition run (db : database) (rs : list (env * request)) : database :=
  foldl step db rs.

(** Whether each request of a sequence is accepted, in order. *)
Fixpoint serve (db : database) (rs : list (env * request)) : list bool :=
  match rs with
  | [] => []
  | er :: rs' =>
      accepted (dispatch er.1 er.2 (start db)) :: serve (step db er) rs'
  end.

(** How many requests of a sequence are accepted. *)
Definition successes (db : database) (rs : list (env * request)) : nat :=
  length (filter (fun b => b = true) (serve db rs)).

(** The SQL statements that change the database, each one atomic: any
    interleaving of the handlers of concurrent requests changes the
    database file by a sequence of these. *)
Inductive sql_step (db : database) : database → Prop :=
| sql_insert_unit ts id number type status location db' :
    insert_unit ts id number type status location db = Returned db' →
    sql_step db db'
| sql_update_unit ts status location id db' :
    update_unit_where_id ts status location id db = Returned db' →
    sql_step db db'
| sql_insert_call ts id number priority type location description status
    name phone db' :
    insert_call ts id number priority type location description status
      name phone db = Returned db' →
    sql_step db db'
| sql_delete_call id : sql_step db (delete_call_where_id id db)
| sql_insert_bolo ts id ttl description type priority status expires
    creator db' :
    insert_bolo ts id ttl description type priority status expires creator db
      = Returned db' →
    sql_step db db'
| sql_delete_bolo id : sql_step db (delete_bolo_where_id id db)
| sql_insert_note ts id call unit type text creator db' :
    insert_note ts id call unit type text creator db = Returned db' →
    sql_step db db'
| sql_delete_note id : sql_step db (delete_note_where_id id db).

(** ** Reading the outcomes *)

(** The error taxonomy of the specification. *)
Inductive spec_error : Type :=
| ValidationError
| ConflictError
| NotFoundError
| InvalidTransitionError.

(** The class of each failure the program can produce: a missing key, a
    value that cannot be bound and a NULL in a NOT NULL column are failures
    of validation, a UNIQUE violation is a conflict.  Nothing in the program
    produces the other two classes. *)
Definition exn_class (e : exn) : spec_error :=
  match e with
  | KeyError _ => ValidationError
  | InterfaceError => ValidationError
  | OverflowError => ValidationError
  | IntegrityError NotNullFailed => ValidationError
  | IntegrityError UniqueFailed => ConflictError
  end.

Definition message_class (m : error_message) : spec_error :=
  match m with
  | RequiredFields => ValidationError
  | AlreadyExists _ => ConflictError
  | ErrorAdding e => exn_class e
  end.

Definition reported_error (ef : effect) : option spec_error :=
  match ef with
  | Emit _ _ (Error m) => Some (message_class m)
  | _ => None
  end.

(** The class of the error a request ends on, if it ends on one. *)
Definition failure {A} (out : result A * world) : option spec_error :=
  match out with
  | (Raised e, _) => Some (exn_class e)
  | (Returned _, w) => last (omap reported_error (trace w))
  end.

Definition is_notice (ef : effect) : bool :=
  match ef with
  | Emit _ _ (Notice _ _ _) => true
  | _ => false
  end.

Definition is_commit (ef : effect) : bool :=
  match ef with
  | Commit _ => true
  | _ => false
  end.

(** The clients an effect reaches, given the connected clients and the one
    whose message is being handled. *)
Definition recipients {client} (connected : list client) (caller : client)
    (ef : effect) : list client :=
  match ef with
  | Emit Everyone _ _ => connected
  | Emit Caller _ _ => [caller]
  | Commit _ => []
  end.

(** The event notice of a mutation: the entity kind (in the event name and
    the key), the action, and the id of the affected record. *)
Definition notice_of (e : env) (r : request) : effect :=
  let new_id := str_uuid (uuid4_first e) in
  match r with
  | POST_units _ | add_unit _ =>
      Emit Everyone "unit_update" (Notice "created" "unit_id" new_id)
  | PUT_unit unit_id _ =>
      Emit Everyone "unit_update" (Notice "updated" "unit_id" unit_id)
  | POST_calls _ | add_call _ =>
      Emit Everyone "call_update" (Notice "created" "call_id" new_id)
  | DELETE_call call_id =>
      Emit Everyone "call_update" (Notice "deleted" "call_id" call_id)
  | POST_bolos _ | add_bolo _ =>
      Emit Everyone "bolo_update" (Notice "created" "bolo_id" new_id)
  | DELETE_bolo bolo_id =>
      Emit Everyone "bolo_update" (Notice "deleted" "bolo_id" bolo_id)
  | POST_notes _ | add_note _ =>
      Emit Everyone "note_update" (Notice "created" "note_id" new_id)
  | DELETE_note note_id =>
      Emit Everyone "note_update" (Notice "deleted" "note_id" note_id)
  end.

(** The body of a create request, and the keys its handler cannot do
    without: those it reads with [data[k]], and for [handle_add_unit] the
    two it tests. *)
Definition request_data (r : request) : dict :=
  match r with
  | POST_units d | PUT_unit _ d | POST_calls d | POST_bolos d | POST_notes d
  | add_unit d | add_call d | add_note d | add_bolo d => d
  | DELETE_call _ | DELETE_bolo _ | DELETE_note _ => ∅
  end.

Definition required_keys (r : request) : list string :=
  match r with
  | POST_units _ => ["unit_number"; "unit_type"]
  | add_unit _ => ["number"; "type"]
  | POST_calls _ => ["priority"; "call_type"; "location"]
  | add_call _ => ["priority"; "type"; "location"]
  | POST_bolos _ => ["title"; "description"; "bolo_type"]
  | add_bolo _ => ["title"; "description"; "type"]
  | POST_notes _ => ["note_type"; "content"]
  | add_note _ => ["type"; "content"]
  | PUT_unit _ _ | DELETE_call _ | DELETE_bolo _ | DELETE_note _ => []
  end.

(** What a create handler takes as a missing field.  [handle_add_unit]
    tests [not data.get(k)]: an absent key and a falsy value (null, the
    empty text, 0, false, an empty list or object) alike.  The other
    handlers only read [data[k]], which fails on an absent key. *)
Definition missing (r : request) (k : string) : bool :=
  match r with
  | add_unit d => negb (truthy (get d k JNull))
  | _ => match request_data r !! k with None => true | Some _ => false end
  end.

(** A value [sqlite3] accepts as a parameter. *)
Definition bindable (v : json) : bool :=
  match bind v with
  | Returned _ => true
  | Raised _ => false
  end.

Definition is_null (v : json) : bool :=
  match v with
  | JNull => true
  | _ => false
  end.

(** The value a create-Unit request gives as unit number. *)
Definition unit_number_of (r : request) : option json :=
  match r with
  | POST_units d => d !! "unit_number"
  | add_unit d => d !! "number"
  | _ => None
  end.

(** A create-Unit request carrying unit number [n]: once bound, its number
    is the text [n]. *)
Definition carries_unit_number (n : string) (r : request) : Prop :=
  ∃ v, unit_number_of r = Some v ∧ bind_text v = Returned (Some n).

(** A create-Unit request whose fields other than the number pass every
    test before the uniqueness of the number is looked at. *)
Definition valid_unit_fields (r : request) : bool :=
  match r with
  | POST_units d =>
      match d !! "unit_type" with
      | Some t => bindable t && negb (is_null t)
      | None => false
      end
      && bindable (get d "status" (JStr "Available"))
      && bindable (get d "location" (JStr ""))
  | add_unit d =>
      truthy (get d "number" JNull)
      && truthy (get d "type" JNull) && bindable (get d "type" JNull)
      && bindable (get d "status" (JStr "Available"))
      && bindable (get d "location" (JStr ""))
  | _ => false
  end.

(** Two dictionaries give the same value, or both none, for each key. *)
Definition agree (d1 d2 : dict) (keys : list string) : Prop :=
  Forall (fun k => d1 !! k = d2 !! k) keys.

(** A request of the request/response channel and one of the push channel
    that create the same kind of entity from the same field values, each
    under the key names of its channel.  For a Unit, the number and the
    type are truthy in addition. *)
Definition same_fields (rh rp : request) : Prop :=
  match rh, rp with
  | POST_units dh, add_unit dp =>
      dh !! "unit_number" = dp !! "number" ∧ dh !! "unit_type" = dp !! "type"
      ∧ agree dh dp ["status"; "location"]
      ∧ truthy (get dp "number" JNull) = true
      ∧ truthy (get dp "type" JNull) = true
  | POST_calls dh, add_call dp =>
      dh !! "call_type" = dp !! "type"
      ∧ agree dh dp ["priority"; "location"; "description"; "status";
                     "reporter_name"; "reporter_phone"]
  | POST_bolos dh, add_bolo dp =>
      dh !! "bolo_type" = dp !! "type"
      ∧ agree dh dp ["title"; "description"; "priority"; "status";
                     "expires_at"; "created_by"]
  | POST_notes dh, add_note dp =>
      dh !! "note_type" = dp !! "type"
      ∧ agree dh dp ["call_id"; "unit_id"; "content"; "created_by"]
  | _, _ => False
  end.

(** An update or a delete whose target id is not stored. *)
Definition absent_target (db : database) (r : request) : Prop :=
  match r with
  | PUT_unit id _ => id ∉ (unit_id <$> units db)
  | DELETE_call id => id ∉ (call_id <$> calls db)
  | DELETE_bolo id => id ∉ (bolo_id <$> bolos db)
  | DELETE_note id => id ∉ (note_id <$> notes db)
  | _ => False
  end.

(** An update whose body has a status and only bindable values; a delete has
    no body. *)
Definition valid_body (r : request) : bool :=
  match r with
  | PUT_unit _ d =>
      match d !! "status" with
      | Some v => bindable v
      | None => false
      end
      && bindable (get d "location" (JStr ""))
  | DELETE_call _ | DELETE_bolo _ | DELETE_note _ => true
  | _ => false
  end.

(** The Unit state machine in the words of the specification: Available,
    Dispatched, EnRoute, OnScene and back to Available; OutOfService from
    any state, and from OutOfService back to Available. *)
Definition unit_transition (from to : string) : bool :=
  String.eqb to "OutOfService"
  || (String.eqb from "Available" && String.eqb to "Dispatched")
  || (String.eqb from "Dispatched" && String.eqb to "EnRoute")
  || (String.eqb from "EnRoute" && String.eqb to "OnScene")
  || (String.eqb from "OnScene" && String.eqb to "Available")
  || (String.eqb from "OutOfService" && String.eqb to "Available").

(** The snapshot a handler of the push channel broadcasts after its commit;
    the routes of the request/response channel send none. *)
Definition snapshot_of (r : request) (db' : database) : list effect :=
  match r with
  | add_unit _ => [Emit Everyone "units_data" (UnitsData (select_units db'))]
  | add_call _ => [Emit Everyone "calls_data" (CallsData (select_calls db'))]
  | add_note _ => [Emit Everyone "notes_data" (NotesData (select_notes db'))]
  | add_bolo _ => [Emit Everyone "bolos_data" (BolosData (select_bolos db'))]
  | _ => []
  end.

(** The world after an accepted request run from a committed database:
    the commit, then the snapshot if any, then the notice. *)
Definition accepted_world (e : env) (r : request) (db' : database) : world :=
  {| committed := db';
     trace := Commit db' :: snapshot_of r db' ++ [notice_of e r] |}.

(** The world after [handle_add_unit] refuses a request: the database as it
    was, and an ['error'] sent to the caller. *)
Definition refused (db : database) (m : error_message) : world :=
  {| committed := db; trace := [Emit Caller "error" (Error m)] |}.

(** ** Invariants *)

(** No Unit has an assigned call. *)
Definition unassigned (db : database) : Prop :=
  Forall (fun u => assigned_call_id u = None) (units db).

(** What the UNIQUE constraints on [unit_number] and [call_number] keep. *)
Definition unique_unit_numbers (db : database) : Prop :=
  NoDup (unit_number <$> units db).

Definition unique_call_numbers (db : database) : Prop :=
  NoDup (call_number <$> calls db).

(** ** Start-up: [init_db] and the status codes *)

(** Table [status_codes].  Its [id] is a TEXT PRIMARY KEY that no INSERT of
    the program gives a value: SQLite stores NULL there (a primary key that
    is not an INTEGER one admits NULL, and two NULLs never collide). *)
Record status_code_row : Type := {
  status_code_id : option string;
  code : string;
  code_description : string;
  category : string
}.

(** The database file before and after [init_db]: a table is absent
    ([None]) until a CREATE TABLE has made it. *)
Record database_file : Type := {
  units_table : option (list unit_row);
  calls_table : option (list call_row);
  bolos_table : option (list bolo_row);
  notes_table : option (list note_row);
  status_codes_table : option (list status_code_row)
}.

(** No file yet: [sqlite3.connect] makes an empty one. *)
Definition new_file : database_file :=
  {| units_table := None; calls_table := None; bolos_table := None;
     notes_table := None; status_codes_table := None |}.

(** [default_codes]: code, description, category. *)
Definition default_codes : list (string * string * string) :=
  [ ("10-4", "Message Received/Acknowledged", "Communication");
    ("10-6", "Busy", "Status");
    ("10-7", "Out of Service", "Status");
    ("10-8", "In Service", "Status");
    ("10-20", "Location", "Information");
    ("10-28", "Vehicle Information", "Information");
    ("10-97", "Arrived at Scene", "Status");
    ("10-98", "Finished Assignment", "Status");
    ("Code 1", "Normal Response", "Priority");
    ("Code 2", "Urgent Response", "Priority");
    ("Code 3", "Emergency Response", "Priority") ].

(** [CREATE TABLE IF NOT EXISTS]: an absent table is made, empty; a table
    that exists is left as it is. *)
Definition create_table_if_not_exists {A} (table : option (list A))
    : list A :=
  match table with
  | Some rows => rows
  | None => []
  end.

(** [INSERT OR IGNORE INTO status_codes (code, description, category)
     VALUES (?, ?, ?)]: the row is left out when its code is stored (the
    UNIQUE constraint on [code]), and added with a NULL id otherwise. *)
Definition insert_or_ignore_status_code (rows : list status_code_row)
    (c : string * string * string) : list status_code_row :=
  if bool_decide (c.1.1 ∈ code <$> rows) then rows
  else rows ++ [ {| status_code_id := None; code := c.1.1;
                    code_description := c.1.2; category := c.2 |} ].

(** [cursor.executemany(stmt, params)]: the statement once per tuple, in
    order. *)
Definition executemany {A B} (stmt : A → B → A) (rows : A) (params : list B)
    : A :=
  foldl stmt rows params.

(** [init_db()], run when the module is loaded. *)
Definition init_db (file : database_file) : database_file :=
  {| units_table := Some (create_table_if_not_exists (units_table file));
     calls_table := Some (create_table_if_not_exists (calls_table file));
     bolos_table := Some (create_table_if_not_exists (bolos_table file));
     notes_table := Some (create_table_if_not_exists (notes_table file));
     status_codes_table :=
       Some (executemany insert_or_ignore_status_code
               (create_table_if_not_exists (status_codes_table file))
               default_codes) |}.

(** The entity tables the handlers work on, in a file [init_db] has been
    through. *)
Definition entity_tables (file : database_file) : database :=
  {| units := create_table_if_not_exists (units_table file);
     calls := create_table_if_not_exists (calls_table file);
     bolos := create_table_if_not_exists (bolos_table file);
     notes := create_table_if_not_exists (notes_table file) |}.

(** ORDER BY category, code: by category, and by code within a category. *)
Definition by_category_code : relation status_code_row :=
  fun a b =>
    if bool_decide (category a = category b) then text_le (code a) (code b)
    else text_le (category a) (category b).

Global Instance by_category_code_dec a b : Decision (by_category_code a b).
Proof. unfold by_category_code. case_bool_decide; apply _. Defined.

(** [SELECT * FROM status_codes ORDER BY category, code] *)
Definition select_status_codes (rows : list status_code_row)
    : list status_code_row :=
  order_by by_category_code rows.

(** [get_status_codes()], on a file [init_db] has been through. *)
Definition get_status_codes (file : database_file) : list status_code_row :=
  select_status_codes (create_table_if_not_exists (status_codes_table file)).

(** [login_required(f)]: the wrapper calls [f] with the arguments it is
    given and nothing else. *)
Definition login_required {A B} (f : A → B) : A → B := fun args => f args.

(** ** Ids *)

(** The ids stored in the table a request acts on. *)
Definition ids (r : request) (db : database) : list string :=
  match r with
  | POST_units _ | PUT_unit _ _ | add_unit _ => unit_id <$> units db
  | POST_calls _ | DELETE_call _ | add_call _ => call_id <$> calls db
  | POST_bolos _ | DELETE_bolo _ | add_bolo _ => bolo_id <$> bolos db
  | POST_notes _ | DELETE_note _ | add_note _ => note_id <$> notes db
  end.

Definition is_create (r : request) : bool :=
  match r with
  | POST_units _ | POST_calls _ | POST_bolos _ | POST_notes _
  | add_unit _ | add_call _ | add_note _ | add_bolo _ => true
  | PUT_unit _ _ | DELETE_call _ | DELETE_bolo _ | DELETE_note _ => false
  end.

(** The id a delete request names. *)
Definition delete_target (r : request) : option string :=
  match r with
  | DELETE_call id | DELETE_bolo id | DELETE_note id => Some id
  | _ => None
  end.

(** The request that deletes what a create request has made, given the
    draws of the creation.  The program has no way to delete a Unit. *)
Definition undo (e : env) (r : request) : option request :=
  match r with
  | POST_calls _ | add_call _ => Some (DELETE_call (str_uuid (uuid4_first e)))
  | POST_bolos _ | add_bolo _ => Some (DELETE_bolo (str_uuid (uuid4_first e)))
  | POST_notes _ | add_note _ => Some (DELETE_note (str_uuid (uuid4_first e)))
  | _ => None
  end.

(** Two databases that hold the same rows in the table a request acts
    on. *)
Definition same_table (r : request) (db1 db2 : database) : Prop :=
  match r with
  | POST_units _ | PUT_unit _ _ | add_unit _ => units db1 = units db2
  | POST_calls _ | DELETE_call _ | add_call _ => calls db1 = calls db2
  | POST_bolos _ | DELETE_bolo _ | add_bolo _ => bolos db1 = bolos db2
  | POST_notes _ | DELETE_note _ | add_note _ => notes db1 = notes db2
  end.



(** Two runs of a statement that end alike on one table: both fail, on
    the same exception, or both succeed, with the same rows in it. *)
Definition agree_on_table {A} (table : database → A)
    (r1 r2 : result database) : Prop :=
  match r1, r2 with
  | Returned a, Returned b => table a = table b
  | Raised x, Raised y => x = y
  | _, _ => False
  end.

(** What the PRIMARY KEY constraints keep. *)
Definition unique_ids (db : database) : Prop :=
  NoDup (unit_id <$> units db) ∧ NoDup (call_id <$> calls db)
  ∧ NoDup (bolo_id <$> bolos db) ∧ NoDup (note_id <$> notes db).

(** ** Sample data *)

Definition sample_env : env :=
  {| uuid4_first := 0x1b4e28ba2fa111d2883f0016d3cca427%N;
     uuid4_second := 0x9f3c0de45a7b4c21a1f0e2d3c4b5a697%N;
     now := {| year := 2024%N; month := 3%N; day := 7%N |};
     current_timestamp := 1709812800%N |}.

(** A second draw: another id, and a second uuid that starts with the same
    four digits. *)
Definition later_env : env :=
  {| uuid4_first := 0x6ba7b8109dad11d180b400c04fd430c8%N;
     uuid4_second := 0x9f3c77770000400080000000000000ff%N;
     now := {| year := 2024%N; month := 3%N; day := 7%N |};
     current_timestamp := 1709816400%N |}.

(** A third draw, the next day: its second uuid starts with other digits. *)
Definition third_env : env :=
  {| uuid4_first := 0x7d4448409dc011d1b2455ffdce74fad2%N;
     uuid4_second := 0x3e2a91c05b6f4d7e8a10c2d4e6f80123%N;
     now := {| year := 2024%N; month := 3%N; day := 8%N |};
     current_timestamp := 1709899200%N |}.

(** The requests of a short session: two Units, two Calls, two BOLOs and
    two Notes, on both channels. *)
Definition session : list (env * request) :=
  [ (sample_env, POST_units {[ "unit_number" := JStr "M-12";
                               "unit_type" := JStr "Medic" ]});
    (later_env, add_unit {[ "number" := JStr "E-7";
                            "type" := JStr "Engine" ]});
    (sample_env, POST_calls {[ "priority" := JStr "High";
                               "call_type" := JStr "MVA";
                               "location" := JStr "5th&Main" ]});
    (third_env, add_call {[ "priority" := JStr "Low";
                            "type" := JStr "Alarm";
                            "location" := JStr "Dock 4" ]});
    (sample_env, POST_bolos {[ "title" := JStr "Red sedan";
                               "description" := JStr "Northbound";
                               "bolo_type" := JStr "Vehicle" ]});
    (later_env, add_bolo {[ "title" := JStr "Missing hiker";
                            "description" := JStr "Blue jacket";
                            "type" := JStr "Person" ]});
    (sample_env, POST_notes {[ "note_type" := JStr "General";
                               "content" := JStr "Shift change" ]});
    (later_env, add_note {[ "type" := JStr "General";
                            "content" := JStr "Road closed" ]}) ].

Definition unit_M12 (status : option string) (call : option string)
    : unit_row :=
  {| unit_id := "u-1"; unit_number := "M-12"; unit_type := "Medic";
     unit_status := status; unit_location := Some "";
     assigned_call_id := call; last_update := Some 1709812800%N |}.

Definition call_c1 : call_row :=
  {| call_id := "c-1"; call_number := "CALL-20240307-9F3C";
     call_priority := Some "High"; call_type := "MVA";
     call_location := "5th&Main"; call_description := Some "";
     call_status := Some "New"; call_created_at := Some 1709812800%N;
     call_updated_at := Some 1709812800%N; assigned_unit_id := Some "u-1";
     reporter_name := Some ""; reporter_phone := Some "" |}.

Definition units_only (us : list unit_row) : database :=
  {| units := us; calls := []; bolos := []; notes := [] |}.

(** * Properties *)

(** ** Orders *)

Section Orders.

Lemma text_le_iff a b :
  text_le a b ↔ String_as_OT.lt a b ∨ a = b.
Proof.
  unfold text_le, String.leb.
  destruct (String.compare a b) eqn:E.
  - apply String_as_OT.cmp_eq in E. tauto.
  - apply String_as_OT.cmp_lt in E. tauto.
  - split; [discriminate|].
    intros [H | H].
    + apply String_as_OT.cmp_lt in H.
      unfold String_as_OT.cmp in H. congruence.
    + apply String_as_OT.cmp_eq in H.
      unfold String_as_OT.cmp in H. congruence.
Qed.

Global Instance text_le_total : Total text_le.
Proof. intros a b. apply String.leb_total. Qed.

Global Instance text_le_trans : Transitive text_le.
Proof.
  intros a b c. rewrite !text_le_iff.
  intros [Hab | ->] [Hbc | ->]; auto.
  left. eapply String_as_OT.lt_trans; eauto.
Qed.

Global Instance cell_le_total : Total cell_le.
Proof. intros [x|] [y|]; simpl; auto. lia. Qed.

Global Instance cell_le_trans : Transitive cell_le.
Proof. intros [x|] [y|] [z|]; simpl; auto; try tauto. lia. Qed.

Global Instance by_unit_number_total : Total by_unit_number.
Proof. intros u v. apply text_le_total. Qed.

Global Instance by_unit_number_trans : Transitive by_unit_number.
Proof. intros u v w. apply text_le_trans. Qed.

Context {A : Type} (created_at : A → option timestamp).

Global Instance by_created_at_desc_total : Total (by_created_at_desc created_at).
Proof. intros x y. apply cell_le_total. Qed.

Global Instance by_created_at_desc_trans :
  Transitive (by_created_at_desc created_at).
Proof. intros x y z Hxy Hyz. eapply cell_le_trans; eauto. Qed.

End Orders.

Section OrderBy.

Context {A : Type} (R : relation A) `{!∀ x y, Decision (R x y)}.
Context `{!Total R, !Transitive R}.

Lemma order_by_sorted rows : StronglySorted R (order_by R rows).
Proof. apply StronglySorted_merge_sort; assumption. Qed.

Lemma order_by_perm rows : order_by R rows ≡ₚ rows.
Proof. apply merge_sort_Permutation. Qed.

End OrderBy.

(** C7.  Each listing, on either channel, is its table sorted: the Units by
    unit number ascending, the Calls, the BOLOs and the Notes by creation
    time descending.  Every row of the table is listed once, and a row
    comes before every row that follows it in the order. *)
Theorem listing_order (db : database) :
  (get_units (start db) = (Returned (Units (select_units db)), start db)
   ∧ (handle_get_units (start db)).2
     = {| committed := db;
          trace := [Emit Caller "units_data" (UnitsData (select_units db))] |}
   ∧ StronglySorted by_unit_number (select_units db)
   ∧ select_units db ≡ₚ units db)
  ∧ (get_calls (start db) = (Returned (Calls (select_calls db)), start db)
     ∧ (handle_get_calls (start db)).2
       = {| committed := db;
            trace := [Emit Caller "calls_data" (CallsData (select_calls db))] |}
     ∧ StronglySorted (by_created_at_desc call_created_at) (select_calls db)
     ∧ select_calls db ≡ₚ calls db)
  ∧ (get_bolos (start db) = (Returned (Bolos (select_bolos db)), start db)
     ∧ (handle_get_bolos (start db)).2
       = {| committed := db;
            trace := [Emit Caller "bolos_data" (BolosData (select_bolos db))] |}
     ∧ StronglySorted (by_created_at_desc bolo_created_at) (select_bolos db)
     ∧ select_bolos db ≡ₚ bolos db)
  ∧ (get_notes (start db) = (Returned (Notes (select_notes db)), start db)
     ∧ (handle_get_notes (start db)).2
       = {| committed := db;
            trace := [Emit Caller "notes_data" (NotesData (select_notes db))] |}
     ∧ StronglySorted (by_created_at_desc note_created_at) (select_notes db)
     ∧ select_notes db ≡ₚ notes db).
Proof.
  repeat split; try reflexivity;
    try (apply order_by_sorted; apply _);
    try (apply order_by_perm).
Qed.

(** ** What the SQL statements do *)

Section Statements.

Ltac unfold_stmt :=
  unfold insert_unit, insert_call, insert_bolo, insert_note,
    update_unit_where_id, select_unit_id_where_number, not_null, unique;
  unfold mbind, result_bind, mret, result_ret.

Lemma insert_unit_Returned ts id number type status location db db' :
  insert_unit ts id number type status location db = Returned db' ↔
  ∃ n t s l,
    bind_text number = Returned (Some n) ∧ bind_text type = Returned (Some t)
    ∧ bind_text status = Returned s ∧ bind_text location = Returned l
    ∧ (id ∉ unit_id <$> units db) ∧ (n ∉ unit_number <$> units db)
    ∧ db' = {| units := units db ++ [ {| unit_id := id; unit_number := n;
                                         unit_type := t; unit_status := s;
                                         unit_location := l;
                                         assigned_call_id := None;
                                         last_update := Some ts |} ];
               calls := calls db; bolos := bolos db; notes := notes db |}.
Proof.
  unfold_stmt.
  destruct (bind_text number) as [[n|]|]; destruct (bind_text type) as [[t|]|];
    destruct (bind_text status) as [s|]; destruct (bind_text location) as [l|];
    repeat case_bool_decide; naive_solver.
Qed.

Lemma insert_call_Returned ts id number priority type location description
    status name phone db db' :
  insert_call ts id number priority type location description status name
    phone db = Returned db' ↔
  ∃ p t l d s nm ph,
    bind_text priority = Returned p ∧ bind_text type = Returned (Some t)
    ∧ bind_text location = Returned (Some l)
    ∧ bind_text description = Returned d ∧ bind_text status = Returned s
    ∧ bind_text name = Returned nm ∧ bind_text phone = Returned ph
    ∧ (id ∉ call_id <$> calls db) ∧ (number ∉ call_number <$> calls db)
    ∧ db' = {| units := units db;
               calls := calls db ++ [ {| call_id := id; call_number := number;
                                         call_priority := p; call_type := t;
                                         call_location := l;
                                         call_description := d;
                                         call_status := s;
                                         call_created_at := Some ts;
                                         call_updated_at := Some ts;
                                         assigned_unit_id := None;
                                         reporter_name := nm;
                                         reporter_phone := ph |} ];
               bolos := bolos db; notes := notes db |}.
Proof.
  unfold_stmt.
  destruct (bind_text priority) as [p|]; destruct (bind_text type) as [[t|]|];
    destruct (bind_text location) as [[l|]|];
    destruct (bind_text description) as [d|];
    destruct (bind_text status) as [s|]; destruct (bind_text name) as [nm|];
    destruct (bind_text phone) as [ph|];
    repeat case_bool_decide; naive_solver.
Qed.

Lemma update_unit_where_id_Returned ts status location id db db' :
  update_unit_where_id ts status location id db = Returned db' ↔
  ∃ s l,
    bind_text status = Returned s ∧ bind_text location = Returned l
    ∧ db' = {| units := (fun u => if bool_decide (unit_id u = id)
                                  then set_unit ts s l u else u)
                        <$> units db;
               calls := calls db; bolos := bolos db; notes := notes db |}.
Proof.
  unfold_stmt.
  destruct (bind_text status) as [s|]; destruct (bind_text location) as [l|];
    naive_solver.
Qed.

Lemma insert_bolo_frame ts id ttl description type priority status expires
    creator db db' :
  insert_bolo ts id ttl description type priority status expires creator db
    = Returned db' →
  units db' = units db ∧ calls db' = calls db ∧ notes db' = notes db.
Proof.
  unfold_stmt.
  destruct (bind_text ttl) as [[?|]|]; destruct (bind_text description) as [[?|]|];
    destruct (bind_text type) as [[?|]|]; destruct (bind_text priority);
    destruct (bind_text status); destruct (bind expires);
    destruct (bind_text creator);
    repeat case_bool_decide; naive_solver.
Qed.

Lemma insert_note_frame ts id call unit type text creator db db' :
  insert_note ts id call unit type text creator db = Returned db' →
  units db' = units db ∧ calls db' = calls db ∧ bolos db' = bolos db.
Proof.
  unfold_stmt.
  destruct (bind_text call); destruct (bind_text unit);
    destruct (bind_text type) as [[?|]|]; destruct (bind_text text) as [[?|]|];
    destruct (bind_text creator);
    repeat case_bool_decide; naive_solver.
Qed.

(** [fetchone()] finds a row exactly when the number is stored. *)
Lemma select_unit_id_where_number_Returned number db r :
  select_unit_id_where_number number db = Returned r ↔
  ∃ c, bind_text number = Returned c
       ∧ (is_Some r ↔ ∃ n, c = Some n ∧ n ∈ (unit_number <$> units db))
       ∧ r = match c with
             | Some n => unit_id <$> head (filter (fun u => unit_number u = n)
                                             (units db))
             | None => None
             end.
Proof.
  unfold_stmt.
  destruct (bind_text number) as [c|]; [|naive_solver].
  split.
  - intros [= <-]. exists c. split; [done|]. split; [|done].
    destruct c as [n|]; [|split; [intros [? [=]]|naive_solver]].
    rewrite fmap_is_Some, head_is_Some.
    split.
    + intros Hne. exists n. split; [done|].
      destruct (filter _ _) as [|u ?] eqn:E; [done|].
      assert (u ∈ filter (λ u, unit_number u = n) (units db)) as Hu
          by (rewrite E; left).
      apply list_elem_of_filter in Hu as [<- Hu].
      by apply list_elem_of_fmap_2.
    + intros (n' & [= <-] & Hn).
      apply list_elem_of_fmap in Hn as (u & -> & Hu).
      intros E.
      assert (u ∈ filter (λ u', unit_number u' = unit_number u) (units db)) as Hf
          by (by apply list_elem_of_filter).
      rewrite E in Hf. by apply elem_of_nil in Hf.
  - intros (c' & [= <-] & _ & ->). done.
Qed.

End Statements.

(** ** The handlers, run from a committed database *)

Section Handlers.

Local Opaque insert_unit insert_call insert_bolo insert_note
  update_unit_where_id select_unit_id_where_number select_units select_calls
  select_bolos select_notes str_uuid make_call_number.

Ltac run_handler :=
  unfold dispatch, create_unit, update_unit, create_call, delete_call,
    create_bolo, delete_bolo, create_note, delete_note, handle_add_unit,
    handle_add_call, handle_add_note, handle_add_bolo, try_except, subscript,
    execute, commit, socketio_emit, emit, emit_to, get_db, raise, start;
  unfold fmap, M_fmap, mbind, M_bind, mret, M_ret; simpl;
  repeat case_match; simplify_eq/=;
  unfold accepted_world, refused, snapshot_of, notice_of; simpl;
  try reflexivity; try congruence.

Variables (e : env) (data : dict) (db : database).

Lemma create_unit_start :
  create_unit e data (start db) =
  match data !! "unit_number", data !! "unit_type" with
  | None, _ => (Raised (KeyError "unit_number"), start db)
  | Some _, None => (Raised (KeyError "unit_type"), start db)
  | Some number, Some type =>
      match insert_unit (current_timestamp e) (str_uuid (uuid4_first e))
              number type (get data "status" (JStr "Available"))
              (get data "location" (JStr "")) db with
      | Raised exc => (Raised exc, start db)
      | Returned db' =>
          (Returned (Created (str_uuid (uuid4_first e))
                       "Unit created successfully"),
           accepted_world e (POST_units data) db')
      end
  end.
Proof. run_handler. Qed.

Lemma update_unit_start unit_id :
  update_unit e unit_id data (start db) =
  match data !! "status" with
  | None => (Raised (KeyError "status"), start db)
  | Some status =>
      match update_unit_where_id (current_timestamp e) status
              (get data "location" (JStr "")) unit_id db with
      | Raised exc => (Raised exc, start db)
      | Returned db' =>
          (Returned (Message "Unit updated successfully"),
           accepted_world e (PUT_unit unit_id data) db')
      end
  end.
Proof. run_handler. Qed.

Lemma create_call_start :
  create_call e data (start db) =
  match data !! "priority", data !! "call_type", data !! "location" with
  | None, _, _ => (Raised (KeyError "priority"), start db)
  | Some _, None, _ => (Raised (KeyError "call_type"), start db)
  | Some _, Some _, None => (Raised (KeyError "location"), start db)
  | Some priority, Some type, Some location =>
      match insert_call (current_timestamp e) (str_uuid (uuid4_first e))
              (make_call_number (now e) (uuid4_second e))
              priority type location
              (get data "description" (JStr ""))
              (get data "status" (JStr "New"))
              (get data "reporter_name" (JStr ""))
              (get data "reporter_phone" (JStr "")) db with
      | Raised exc => (Raised exc, start db)
      | Returned db' =>
          (Returned (CreatedCall (str_uuid (uuid4_first e))
                       (make_call_number (now e) (uuid4_second e))
                       "Call created successfully"),
           accepted_world e (POST_calls data) db')
      end
  end.
Proof. run_handler. Qed.

Lemma delete_call_start call_id :
  delete_call call_id (start db) =
  (Returned (Message "Call deleted successfully"),
   accepted_world e (DELETE_call call_id) (delete_call_where_id call_id db)).
Proof. run_handler. Qed.

Lemma create_bolo_start :
  create_bolo e data (start db) =
  match data !! "title", data !! "description", data !! "bolo_type" with
  | None, _, _ => (Raised (KeyError "title"), start db)
  | Some _, None, _ => (Raised (KeyError "description"), start db)
  | Some _, Some _, None => (Raised (KeyError "bolo_type"), start db)
  | Some ttl, Some description, Some type =>
      match insert_bolo (current_timestamp e) (str_uuid (uuid4_first e))
              ttl description type
              (get data "priority" (JStr "Medium"))
              (get data "status" (JStr "Active"))
              (get data "expires_at" JNull)
              (get data "created_by" (JStr "Dispatcher")) db with
      | Raised exc => (Raised exc, start db)
      | Returned db' =>
          (Returned (Created (str_uuid (uuid4_first e))
                       "BOLO created successfully"),
           accepted_world e (POST_bolos data) db')
      end
  end.
Proof. run_handler. Qed.

Lemma delete_bolo_start bolo_id :
  delete_bolo bolo_id (start db) =
  (Returned (Message "BOLO deleted successfully"),
   accepted_world e (DELETE_bolo bolo_id) (delete_bolo_where_id bolo_id db)).
Proof. run_handler. Qed.

Lemma create_note_start :
  create_note e data (start db) =
  match data !! "note_type", data !! "content" with
  | None, _ => (Raised (KeyError "note_type"), start db)
  | Some _, None => (Raised (KeyError "content"), start db)
  | Some type, Some text =>
      match insert_note (current_timestamp e) (str_uuid (uuid4_first e))
              (get data "call_id" JNull) (get data "unit_id" JNull)
              type text
              (get data "created_by" (JStr "Dispatcher")) db with
      | Raised exc => (Raised exc, start db)
      | Returned db' =>
          (Returned (Created (str_uuid (uuid4_first e))
                       "Note created successfully"),
           accepted_world e (POST_notes data) db')
      end
  end.
Proof. run_handler. Qed.

Lemma delete_note_start note_id :
  delete_note note_id (start db) =
  (Returned (Message "Note deleted successfully"),
   accepted_world e (DELETE_note note_id) (delete_note_where_id note_id db)).
Proof. run_handler. Qed.

Lemma handle_add_unit_start :
  handle_add_unit e data (start db) =
  if negb (truthy (get data "number" JNull))
     || negb (truthy (get data "type" JNull))
  then (Returned (), refused db RequiredFields)
  else
    match data !! "number" with
    | None => (Returned (), refused db (ErrorAdding (KeyError "number")))
    | Some number =>
        match select_unit_id_where_number number db with
        | Raised exc => (Returned (), refused db (ErrorAdding exc))
        | Returned (Some _) => (Returned (), refused db (AlreadyExists number))
        | Returned None =>
            match data !! "type" with
            | None => (Returned (), refused db (ErrorAdding (KeyError "type")))
            | Some type =>
                match insert_unit (current_timestamp e)
                        (str_uuid (uuid4_first e)) number type
                        (get data "status" (JStr "Available"))
                        (get data "location" (JStr "")) db with
                | Raised exc => (Returned (), refused db (ErrorAdding exc))
                | Returned db' =>
                    (Returned (), accepted_world e (add_unit data) db')
                end
            end
        end
    end.
Proof. run_handler. Qed.

Lemma handle_add_call_start :
  handle_add_call e data (start db) =
  match data !! "priority", data !! "type", data !! "location" with
  | None, _, _ => (Raised (KeyError "priority"), start db)
  | Some _, None, _ => (Raised (KeyError "type"), start db)
  | Some _, Some _, None => (Raised (KeyError "location"), start db)
  | Some priority, Some type, Some location =>
      match insert_call (current_timestamp e) (str_uuid (uuid4_first e))
              (make_call_number (now e) (uuid4_second e))
              priority type location
              (get data "description" (JStr ""))
              (get data "status" (JStr "New"))
              (get data "reporter_name" (JStr ""))
              (get data "reporter_phone" (JStr "")) db with
      | Raised exc => (Raised exc, start db)
      | Returned db' => (Returned (), accepted_world e (add_call data) db')
      end
  end.
Proof. run_handler. Qed.

Lemma handle_add_note_start :
  handle_add_note e data (start db) =
  match data !! "type", data !! "content" with
  | None, _ => (Raised (KeyError "type"), start db)
  | Some _, None => (Raised (KeyError "content"), start db)
  | Some type, Some text =>
      match insert_note (current_timestamp e) (str_uuid (uuid4_first e))
              (get data "call_id" JNull) (get data "unit_id" JNull)
              type text
              (get data "created_by" (JStr "Dispatcher")) db with
      | Raised exc => (Raised exc, start db)
      | Returned db' => (Returned (), accepted_world e (add_note data) db')
      end
  end.
Proof. run_handler. Qed.

Lemma handle_add_bolo_start :
  handle_add_bolo e data (start db) =
  match data !! "title", data !! "description", data !! "type" with
  | None, _, _ => (Raised (KeyError "title"), start db)
  | Some _, None, _ => (Raised (KeyError "description"), start db)
  | Some _, Some _, None => (Raised (KeyError "type"), start db)
  | Some ttl, Some description, Some type =>
      match insert_bolo (current_timestamp e) (str_uuid (uuid4_first e))
              ttl description type
              (get data "priority" (JStr "Medium"))
              (get data "status" (JStr "Active"))
              (get data "expires_at" JNull)
              (get data "created_by" (JStr "Dispatcher")) db with
      | Raised exc => (Raised exc, start db)
      | Returned db' => (Returned (), accepted_world e (add_bolo data) db')
      end
  end.
Proof. run_handler. Qed.

End Handlers.

(** ** The three ways a request can end *)

Lemma dispatch_start e r db :
  dispatch e r (start db) =
  match r with
  | POST_units data => (Some <$> create_unit e data) (start db)
  | PUT_unit unit_id data => (Some <$> update_unit e unit_id data) (start db)
  | POST_calls data => (Some <$> create_call e data) (start db)
  | DELETE_call call_id => (Some <$> delete_call call_id) (start db)
  | POST_bolos data => (Some <$> create_bolo e data) (start db)
  | DELETE_bolo bolo_id => (Some <$> delete_bolo bolo_id) (start db)
  | POST_notes data => (Some <$> create_note e data) (start db)
  | DELETE_note note_id => (Some <$> delete_note note_id) (start db)
  | add_unit data => (handle_add_unit e data;; mret None) (start db)
  | add_call data => (handle_add_call e data;; mret None) (start db)
  | add_note data => (handle_add_note e data;; mret None) (start db)
  | add_bolo data => (handle_add_bolo e data;; mret None) (start db)
  end.
Proof. by destruct r. Qed.

Ltac by_handler_equation e :=
  rewrite !dispatch_start; unfold fmap, M_fmap, mbind, M_bind, mret, M_ret;
  rewrite ?create_unit_start, ?update_unit_start, ?create_call_start,
    ?(delete_call_start e), ?create_bolo_start, ?(delete_bolo_start e),
    ?create_note_start, ?(delete_note_start e), ?handle_add_unit_start,
    ?handle_add_call_start, ?handle_add_note_start, ?handle_add_bolo_start.

Section Outcomes.

Local Opaque insert_unit insert_call insert_bolo insert_note
  update_unit_where_id select_unit_id_where_number select_units select_calls
  select_bolos select_notes str_uuid make_call_number.

(** A request ends in one of three ways: its statement is committed and
    the notice broadcast; or an exception leaves the handler and nothing has
    happened; or [handle_add_unit] reports an error and nothing else has
    happened. *)
Lemma dispatch_cases e r db :
  (∃ resp db', dispatch e r (start db) = (Returned resp, accepted_world e r db')
               ∧ sql_step db db')
  ∨ (∃ exc, dispatch e r (start db) = (Raised exc, start db))
  ∨ (∃ m, dispatch e r (start db) = (Returned None, refused db m)).
Proof.
  destruct r; by_handler_equation e; repeat case_match; simplify_eq/=;
    eauto 7 using sql_step.
Qed.

Lemma accepted_accepted_world {A} (a : A) e r db' :
  accepted (Returned a, accepted_world e r db') = true.
Proof. by destruct r. Qed.

Lemma accepted_refused {A} (a : A) db m :
  accepted (Returned a, refused db m) = false.
Proof. done. Qed.

Lemma snapshot_of_no_notice r db' :
  Forall (fun ef => is_notice ef = false) (snapshot_of r db').
Proof. destruct r; simpl; repeat constructor. Qed.

(** C8.  When a request is accepted, the last thing that happens is the
    emission of its notice (entity kind, action, id of the record) to every
    connected client, and the commit of the database the request leaves
    comes before it in the trace; the notice is the only one emitted.  When
    a request is rejected, the database is as before and the trace holds
    neither a commit nor a notice. *)
Theorem notice_after_commit (e : env) (r : request) (db : database) :
  let out := dispatch e r (start db) in
  if accepted out
  then ∃ pre, trace out.2 = pre ++ [notice_of e r]
              ∧ Commit (committed out.2) ∈ pre
              ∧ Forall (fun ef => is_notice ef = false) pre
              ∧ is_notice (notice_of e r) = true
              ∧ ∀ (client : Type) (connected : list client) (caller : client),
                  recipients connected caller (notice_of e r) = connected
  else committed out.2 = db
       ∧ Forall (fun ef => is_notice ef = false ∧ is_commit ef = false)
           (trace out.2).
Proof.
  intros out. subst out.
  destruct (dispatch_cases e r db)
    as [(resp & db' & -> & _) | [(exc & ->) | (m & ->)]].
  - rewrite accepted_accepted_world. simpl.
    exists (Commit db' :: snapshot_of r db'). split; [done|].
    split; [left|]. split.
    { constructor; [done|]. apply snapshot_of_no_notice. }
    by destruct r.
  - simpl. split; [done|]. constructor.
  - simpl. split; [done|]. repeat constructor.
Qed.

End Outcomes.

Section Frame.

(** C10.  [update_unit] leaves the tables of Calls, BOLOs and Notes as they
    were; it keeps every Unit row in place with its id, unit number, unit type
    and assigned call, and it leaves alone every row whose id is not the
    one of the request. *)
Theorem update_unit_frame (e : env) (id : string) (data : dict)
    (db : database) :
  let db' := committed (update_unit e id data (start db)).2 in
  calls db' = calls db ∧ bolos db' = bolos db ∧ notes db' = notes db
  ∧ Forall2 (fun u u' =>
               unit_id u' = unit_id u ∧ unit_number u' = unit_number u
               ∧ unit_type u' = unit_type u
               ∧ assigned_call_id u' = assigned_call_id u
               ∧ (unit_id u ≠ id → u' = u))
      (units db) (units db').
Proof.
  intros db'. subst db'. rewrite update_unit_start.
  assert (∀ us : list unit_row,
             Forall2 (fun u u' =>
               unit_id u' = unit_id u ∧ unit_number u' = unit_number u
               ∧ unit_type u' = unit_type u
               ∧ assigned_call_id u' = assigned_call_id u
               ∧ (unit_id u ≠ id → u' = u)) us us) as Hsame.
  { intros us. apply Forall_Forall2_diag, Forall_forall. naive_solver. }
  destruct (data !! "status") as [status|]; [|by simpl].
  destruct (update_unit_where_id _ _ _ _ _) as [db'|exc] eqn:E; [|by simpl].
  apply update_unit_where_id_Returned in E as (s & l & _ & _ & ->). simpl.
  repeat split.
  apply Forall2_fmap_r, Forall_Forall2_diag, Forall_forall.
  intros u _. simpl. case_bool_decide; naive_solver.
Qed.

End Frame.

(** ** Updates and deletes *)

Section Targets.

Local Opaque str_uuid make_call_number select_units.

Lemma update_absent_id ts s l id (us : list unit_row) :
  id ∉ (unit_id <$> us) →
  (fun u => if bool_decide (unit_id u = id) then set_unit ts s l u else u)
    <$> us = us.
Proof.
  induction us as [|u us IH]; [done|].
  rewrite fmap_cons, not_elem_of_cons. intros [Hne Hin].
  rewrite fmap_cons, IH by done.
  by rewrite bool_decide_eq_false_2.
Qed.

Lemma filter_absent_id {A} (key : A → string) id (rows : list A) :
  id ∉ (key <$> rows) → filter (fun x => key x ≠ id) rows = rows.
Proof.
  induction rows as [|x rows IH]; [done|].
  rewrite fmap_cons, not_elem_of_cons. intros [Hne Hin].
  rewrite filter_cons_True by done. by rewrite IH.
Qed.

Lemma exn_class_found exc : exn_class exc ≠ NotFoundError.
Proof. by destruct exc as [| | |[]]. Qed.

Lemma failure_accepted_world {A} (a : A) e r db' :
  failure (Returned a, accepted_world e r db') = None.
Proof. by destruct r. Qed.

(** C5 (as amended).  An update or a delete whose target id is not stored
    changes no record and never ends on a not-found error; when its body is
    well formed (always, for a delete) it is accepted: the route answers
    with its success message and the notice is broadcast. *)
Theorem absent_target_succeeds (e : env) (r : request) (db : database) :
  absent_target db r →
  let out := dispatch e r (start db) in
  committed out.2 = db
  ∧ failure out ≠ Some NotFoundError
  ∧ (valid_body r = true →
     accepted out = true ∧ out.2 = accepted_world e r db
     ∧ ∃ message, out.1 = Returned (Some (Message message))).
Proof.
  intros Habsent out. subst out. destruct db as [us cs bs ns].
  destruct r as [|id data| |id| |id| |id| | | |]; try done;
    simpl in Habsent; by_handler_equation e; simpl.
  - unfold valid_body.
    destruct (data !! "status") as [status|] eqn:Hstatus; [|done].
    unfold update_unit_where_id, mbind, result_bind, mret, result_ret.
    unfold bindable, bind_text. simpl.
    destruct (bind status) as [?|exc]; simpl;
      [|by pose proof (exn_class_found exc); split_and!; try congruence].
    destruct (bind (get data "location" (JStr ""))) as [?|exc]; simpl;
      [|by pose proof (exn_class_found exc); split_and!; try congruence].
    rewrite update_absent_id by done. naive_solver.
  - unfold delete_call_where_id. simpl. rewrite filter_absent_id by done.
    naive_solver.
  - unfold delete_bolo_where_id. simpl. rewrite filter_absent_id by done.
    naive_solver.
  - unfold delete_note_where_id. simpl. rewrite filter_absent_id by done.
    naive_solver.
Qed.

(** The theorem at a delete on the empty database. *)
Lemma absent_target_succeeds_witness :
  absent_target empty_db (DELETE_note "n-404")
  ∧ (let out := dispatch sample_env (DELETE_note "n-404") (start empty_db) in
     committed out.2 = empty_db
     ∧ failure out ≠ Some NotFoundError
     ∧ (valid_body (DELETE_note "n-404") = true →
        accepted out = true
        ∧ out.2 = accepted_world sample_env (DELETE_note "n-404") empty_db
        ∧ ∃ message, out.1 = Returned (Some (Message message)))).
Proof.
  assert (absent_target empty_db (DELETE_note "n-404")) as H
    by apply not_elem_of_nil.
  split; [exact H|].
  exact (absent_target_succeeds sample_env (DELETE_note "n-404") empty_db H).
Defined.

(** C5, as stated, fails: deleting a Call whose id is not stored is
    answered with the success message, and no not-found error is reported. *)
Lemma absent_call_deleted_successfully :
  absent_target empty_db (DELETE_call "c-404")
  ∧ delete_call "c-404" (start empty_db)
    = (Returned (Message "Call deleted successfully"),
       {| committed := empty_db;
          trace := [Commit empty_db;
                    Emit Everyone "call_update"
                      (Notice "deleted" "call_id" "c-404")] |})
  ∧ accepted (dispatch sample_env (DELETE_call "c-404") (start empty_db))
    = true
  ∧ failure (dispatch sample_env (DELETE_call "c-404") (start empty_db))
    = None.
Proof. split; [apply not_elem_of_nil|]. by vm_compute. Qed.

(** C4 (as amended).  [update_unit] has no state machine: a request that
    carries a status, with values [sqlite3] can bind, is accepted whatever
    the status of the Unit was, every Unit row stays, and the row of the
    given id now has the status of the request. *)
Theorem update_unit_applies_any_status (e : env) (id : string) (data : dict)
    (db : database) (v : json) (s : option string) :
  data !! "status" = Some v →
  bind_text v = Returned s →
  bindable (get data "location" (JStr "")) = true →
  let out := update_unit e id data (start db) in
  accepted out = true
  ∧ unit_id <$> units (committed out.2) = unit_id <$> units db
  ∧ ∀ u, u ∈ units (committed out.2) → unit_id u = id → unit_status u = s.
Proof.
  intros Hstatus Hs Hl out. subst out. rewrite update_unit_start, Hstatus.
  unfold update_unit_where_id, mbind, result_bind, mret, result_ret.
  rewrite Hs. unfold bindable, bind_text in *.
  destruct (bind (get data "location" (JStr ""))) as [l|]; [|done]. simpl.
  split; [done|]. split.
  - rewrite <- list_fmap_compose. apply list_fmap_ext.
    intros i u _. simpl. by case_bool_decide.
  - intros u' Hu' Hid. apply list_elem_of_fmap in Hu' as (u & -> & Hu).
    revert Hid. case_bool_decide; [done|]. congruence.
Qed.

(** The theorem at the transition the specification allows: a Unit out of
    service is made available. *)
Lemma update_unit_applies_any_status_witness :
  let db := units_only [unit_M12 (Some "OutOfService") None] in
  let data : dict := {[ "status" := JStr "Available" ]} in
  let out := update_unit sample_env "u-1" data (start db) in
  accepted out = true
  ∧ unit_id <$> units (committed out.2) = unit_id <$> units db
  ∧ ∀ u, u ∈ units (committed out.2) → unit_id u = "u-1" →
         unit_status u = Some "Available".
Proof.
  intros db data.
  apply (update_unit_applies_any_status sample_env "u-1" data db
           (JStr "Available") (Some "Available")); reflexivity.
Defined.

(** C4, as stated, fails: a Unit out of service is put on scene by one
    update, a transition the state machine of the specification does not
    have. *)
Lemma out_of_service_to_on_scene :
  let db := units_only [unit_M12 (Some "OutOfService") None] in
  let data : dict := {[ "status" := JStr "OnScene" ]} in
  let out := update_unit sample_env "u-1" data (start db) in
  unit_transition "OutOfService" "OnScene" = false
  ∧ accepted out = true
  ∧ unit_status <$> units (committed out.2) = [Some "OnScene"].
Proof. by vm_compute. Qed.

End Targets.

(** ** Missing fields *)

Section Validation.

Local Opaque insert_unit insert_call insert_bolo insert_note
  select_unit_id_where_number str_uuid make_call_number.

Ltac each_key H :=
  repeat (apply elem_of_cons in H as [-> | H]); [..|by apply elem_of_nil in H].

Ltac key_error k :=
  exists k; split; [set_solver|]; split; [done|reflexivity].

(** C6 (as amended).  A create request with a missing required field is
    not applied, on either channel: its handler commits nothing, broadcasts
    nothing, and the database is as before.  [handle_add_unit], for which a
    falsy number or type is missing too, reports to the caller alone that
    number and type are required, and returns.  Every other handler stops
    on the [KeyError] of an absent required key, which it does not catch,
    and sends nothing. *)
Theorem missing_required_key_rejected (e : env) (r : request) (db : database)
    (k : string) :
  k ∈ required_keys r →
  missing r k = true →
  let out := dispatch e r (start db) in
  match r with
  | add_unit _ => out = (Returned None, refused db RequiredFields)
  | _ => ∃ k', k' ∈ required_keys r ∧ request_data r !! k' = None
               ∧ out = (Raised (KeyError k'), start db)
  end
  ∧ accepted out = false
  ∧ step db (e, r) = db.
Proof.
  intros Hk Hmissing out. subst out. unfold step. cbn [fst snd].
  destruct r as [data|id data|data|id|data|id|data|id|data|data|data|data];
    simpl in Hk, Hmissing; try (by apply elem_of_nil in Hk);
    each_key Hk; by_handler_equation e;
    try (apply negb_true_iff in Hmissing; rewrite Hmissing; simpl;
         rewrite ?orb_true_r; done);
    repeat match goal with
           | |- context [data !! ?key] =>
               let E := fresh "E" in
               destruct (data !! key) eqn:E; try discriminate Hmissing
           end;
    simpl; (split; [|done]);
    first [ key_error "unit_number" | key_error "unit_type"
          | key_error "priority" | key_error "call_type"
          | key_error "location" | key_error "title"
          | key_error "description" | key_error "bolo_type"
          | key_error "note_type" | key_error "content" | key_error "type" ].
Qed.


(** The theorem at two requests served after a session: a Call sent on the
    push channel without a location, and a Unit sent there with the empty
    text as its number. *)
Lemma missing_required_key_rejected_witness :
  let call : dict := {[ "priority" := JStr "High"; "type" := JStr "MVA" ]} in
  let unit : dict := {[ "number" := JStr ""; "type" := JStr "Medic" ]} in
  let db := run empty_db session in
  ("location" ∈ required_keys (add_call call)
   ∧ missing (add_call call) "location" = true
   ∧ (∃ k', k' ∈ required_keys (add_call call)
            ∧ request_data (add_call call) !! k' = None
            ∧ dispatch third_env (add_call call) (start db)
              = (Raised (KeyError k'), start db))
   ∧ accepted (dispatch third_env (add_call call) (start db)) = false
   ∧ step db (third_env, add_call call) = db)
  ∧ ("number" ∈ required_keys (add_unit unit)
     ∧ missing (add_unit unit) "number" = true
     ∧ dispatch third_env (add_unit unit) (start db)
       = (Returned None, refused db RequiredFields)
     ∧ accepted (dispatch third_env (add_unit unit) (start db)) = false
     ∧ step db (third_env, add_unit unit) = db).
Proof.
  intros call unit db.
  assert ("location" ∈ required_keys (add_call call)) as Hk
    by (simpl; do 2 right; left).
  assert ("number" ∈ required_keys (add_unit unit)) as Hk' by (simpl; left).
  split.
  - split; [exact Hk|]. split; [reflexivity|].
    exact (missing_required_key_rejected third_env (add_call call) db
             "location" Hk eq_refl).
  - split; [exact Hk'|]. split; [reflexivity|].
    exact (missing_required_key_rejected third_env (add_unit unit) db
             "number" Hk' eq_refl).
Defined.

(** C6, as stated, fails for a Call without a location.  When the key is
    absent, [handle_add_call] stops on a [KeyError] that nothing in the
    program catches, and no ['error'] is sent to the caller.  When the
    location is the empty text, no handler takes it as missing: the Call is
    accepted and stored with that location, on both channels. *)
Lemma missing_field_not_validated :
  let absent : dict := {[ "priority" := JStr "High"; "type" := JStr "MVA" ]} in
  let pushed : dict := {[ "priority" := JStr "High"; "type" := JStr "MVA";
                          "location" := JStr "" ]} in
  let posted : dict := {[ "priority" := JStr "High";
                          "call_type" := JStr "MVA";
                          "location" := JStr "" ]} in
  dispatch sample_env (add_call absent) (start empty_db)
  = (Raised (KeyError "location"), start empty_db)
  ∧ trace (dispatch sample_env (add_call absent) (start empty_db)).2 = []
  ∧ accepted (dispatch sample_env (add_call pushed) (start empty_db)) = true
  ∧ call_location <$> calls (step empty_db (sample_env, add_call pushed))
    = [""]
  ∧ accepted (dispatch sample_env (POST_calls posted) (start empty_db)) = true
  ∧ call_location <$> calls (step empty_db (sample_env, POST_calls posted))
    = [""].
Proof. by vm_compute. Qed.

End Validation.

(** ** The two channels *)

Section Channels.

Local Opaque insert_call insert_bolo insert_note str_uuid make_call_number
  select_units select_calls select_bolos select_notes.

Lemma insert_unit_number_unbound ts id number type status location db exc :
  bind_text number = Raised exc →
  insert_unit ts id number type status location db = Raised exc.
Proof.
  intros H. unfold insert_unit, mbind, result_bind. by rewrite H.
Qed.

(** A number already stored makes the INSERT fail, whatever else the
    parameters are. *)
Lemma insert_unit_number_stored ts id number type status location db n :
  bind_text number = Returned (Some n) →
  n ∈ (unit_number <$> units db) →
  ∃ exc, insert_unit ts id number type status location db = Raised exc.
Proof.
  intros Hn Hin.
  destruct (insert_unit ts id number type status location db) as [db'|exc]
    eqn:E; [|by eauto].
  apply insert_unit_Returned in E
    as (n' & ? & ? & ? & Hn' & _ & _ & _ & _ & Hnot & _).
  congruence.
Qed.

Lemma get_agree (d1 d2 : dict) k1 k2 default :
  d1 !! k1 = d2 !! k2 → get d1 k1 default = get d2 k2 default.
Proof. unfold get. by intros ->. Qed.

Ltac agree_on H :=
  unfold agree in H; repeat (apply Forall_cons in H as [? H]).

(** C2 (as amended).  For Calls, BOLOs and Notes, a create request of the
    request/response channel and one of the push channel that give the same
    value to every field (each under the key names of its channel) are
    both accepted or both rejected, and they leave the same database.  The
    same holds for Units when the number and the type are truthy. *)
Theorem channels_agree (e : env) (rh rp : request) (db : database) :
  same_fields rh rp →
  accepted (dispatch e rh (start db)) = accepted (dispatch e rp (start db))
  ∧ step db (e, rh) = step db (e, rp).
Proof.
  unfold step. cbn [fst snd].
  destruct rh as [dh| |dh| |dh| |dh| | | | |]; try done;
    destruct rp as [| | | | | | | |dp|dp|dp|dp]; try done; cbn [same_fields].
  - (* Units *)
    intros (Hnumber & Htype & Hrest & Hn & Ht). agree_on Hrest.
    by_handler_equation e. rewrite Hn, Ht. simpl.
    rewrite (get_agree dh dp "status" "status") by done.
    rewrite (get_agree dh dp "location" "location") by done.
    rewrite Hnumber, Htype.
    destruct (dp !! "number") as [number|] eqn:Hnum;
      [|by unfold get in Hn; rewrite Hnum in Hn].
    destruct (dp !! "type") as [type|] eqn:Htyp;
      [|by unfold get in Ht; rewrite Htyp in Ht].
    destruct (select_unit_id_where_number number db) as [[existing|]|exc]
      eqn:Hsel.
    + apply select_unit_id_where_number_Returned in Hsel
        as (c & Hc & Hsome & _).
      destruct Hsome as [Hsome _].
      destruct Hsome as (n & -> & Hin); [by eexists|].
      edestruct insert_unit_number_stored as [exc ->]; [done..|]. done.
    + by destruct insert_unit.
    + unfold select_unit_id_where_number, mbind, result_bind in Hsel.
      destruct (bind_text number) as [|exc'] eqn:Hb; [done|].
      by erewrite insert_unit_number_unbound.
  - (* Calls *)
    intros (Htype & Hrest). agree_on Hrest. by_handler_equation e.
    rewrite (get_agree dh dp "description" "description") by done.
    rewrite (get_agree dh dp "status" "status") by done.
    rewrite (get_agree dh dp "reporter_name" "reporter_name") by done.
    rewrite (get_agree dh dp "reporter_phone" "reporter_phone") by done.
    replace (dh !! "priority") with (dp !! "priority") by done.
    replace (dh !! "location") with (dp !! "location") by done.
    rewrite Htype. repeat case_match; by simplify_eq/=.
  - (* BOLOs *)
    intros (Htype & Hrest). agree_on Hrest. by_handler_equation e.
    rewrite (get_agree dh dp "priority" "priority") by done.
    rewrite (get_agree dh dp "status" "status") by done.
    rewrite (get_agree dh dp "expires_at" "expires_at") by done.
    rewrite (get_agree dh dp "created_by" "created_by") by done.
    replace (dh !! "title") with (dp !! "title") by done.
    replace (dh !! "description") with (dp !! "description") by done.
    rewrite Htype. repeat case_match; by simplify_eq/=.
  - (* Notes *)
    intros (Htype & Hrest). agree_on Hrest. by_handler_equation e.
    rewrite (get_agree dh dp "call_id" "call_id") by done.
    rewrite (get_agree dh dp "unit_id" "unit_id") by done.
    rewrite (get_agree dh dp "created_by" "created_by") by done.
    replace (dh !! "content") with (dp !! "content") by done.
    rewrite Htype. repeat case_match; by simplify_eq/=.
Qed.

(** The theorem at the Call of the example scenario. *)
Lemma channels_agree_witness :
  let dh : dict := {[ "priority" := JStr "High"; "call_type" := JStr "MVA";
                      "location" := JStr "5th&Main" ]} in
  let dp : dict := {[ "priority" := JStr "High"; "type" := JStr "MVA";
                      "location" := JStr "5th&Main" ]} in
  same_fields (POST_calls dh) (add_call dp)
  ∧ accepted (dispatch sample_env (POST_calls dh) (start empty_db))
    = accepted (dispatch sample_env (add_call dp) (start empty_db))
  ∧ step empty_db (sample_env, POST_calls dh)
    = step empty_db (sample_env, add_call dp).
Proof.
  intros dh dp.
  assert (same_fields (POST_calls dh) (add_call dp)) as H
    by (split; [reflexivity|repeat constructor]).
  split; [exact H|].
  exact (channels_agree sample_env (POST_calls dh) (add_call dp) empty_db H).
Defined.

(** C2, as stated, fails: a Unit whose number is the empty string is stored
    by the route and refused by the event handler. *)
Lemma empty_unit_number_channels_differ :
  let dh : dict := {[ "unit_number" := JStr ""; "unit_type" := JStr "Medic" ]} in
  let dp : dict := {[ "number" := JStr ""; "type" := JStr "Medic" ]} in
  accepted (dispatch sample_env (POST_units dh) (start empty_db)) = true
  ∧ accepted (dispatch sample_env (add_unit dp) (start empty_db)) = false
  ∧ unit_number <$> units (step empty_db (sample_env, POST_units dh)) = [""]
  ∧ units (step empty_db (sample_env, add_unit dp)) = [].
Proof. by vm_compute. Qed.

End Channels.

(** ** Invariants of the database *)

Section Invariants.

Local Opaque str_uuid make_call_number select_units select_calls
  select_bolos select_notes.

(** What one statement does to table [units]: nothing, or one more row
    with a new id, a new number and no assigned call, or new values in the
    status, location and last-update columns. *)
Lemma sql_step_units db db' :
  sql_step db db' →
  units db' = units db
  ∨ (∃ row, units db' = units db ++ [row] ∧ assigned_call_id row = None
            ∧ (unit_id row ∉ unit_id <$> units db)
            ∧ (unit_number row ∉ unit_number <$> units db))
  ∨ (∃ ts s l id,
       units db' = (fun u => if bool_decide (unit_id u = id)
                             then set_unit ts s l u else u) <$> units db).
Proof.
  destruct 1 as [? ? ? ? ? ? ? E|? ? ? ? ? E|? ? ? ? ? ? ? ? ? ? ? E|
                 |? ? ? ? ? ? ? ? ? ? E| |? ? ? ? ? ? ? ? E|]; auto.
  - apply insert_unit_Returned in E
      as (n & t & s & l & _ & _ & _ & _ & Hid & Hn & ->).
    right; left. eexists. by repeat split.
  - apply update_unit_where_id_Returned in E as (s & l & _ & _ & ->).
    right; right. by do 4 eexists.
  - apply insert_call_Returned in E
      as (? & ? & ? & ? & ? & ? & ? & _ & _ & _ & _ & _ & _ & _ & _ & _ & ->).
    by left.
  - apply insert_bolo_frame in E as (-> & _). by left.
  - apply insert_note_frame in E as (-> & _). by left.
Qed.

(** What one statement does to table [calls]: nothing, or one more row
    with a new id and a new number, or the removal of the rows of one id. *)
Lemma sql_step_calls db db' :
  sql_step db db' →
  calls db' = calls db
  ∨ (∃ row, calls db' = calls db ++ [row]
            ∧ (call_id row ∉ call_id <$> calls db)
            ∧ (call_number row ∉ call_number <$> calls db))
  ∨ (∃ id, calls db' = filter (fun c => call_id c ≠ id) (calls db)).
Proof.
  destruct 1 as [? ? ? ? ? ? ? E|? ? ? ? ? E|? ? ? ? ? ? ? ? ? ? ? E|
                 |? ? ? ? ? ? ? ? ? ? E| |? ? ? ? ? ? ? ? E|]; auto.
  - apply insert_unit_Returned in E
      as (n & t & s & l & _ & _ & _ & _ & _ & _ & ->). by left.
  - apply update_unit_where_id_Returned in E as (s & l & _ & _ & ->).
    by left.
  - apply insert_call_Returned in E
      as (? & ? & ? & ? & ? & ? & ? & _ & _ & _ & _ & _ & _ & _ & Hid & Hn
          & ->).
    right; left. eexists. by repeat split.
  - right; right. by eexists.
  - apply insert_bolo_frame in E as (_ & -> & _). by left.
  - apply insert_note_frame in E as (_ & -> & _). by left.
Qed.

Lemma sql_step_unassigned db db' :
  sql_step db db' → unassigned db → unassigned db'.
Proof.
  unfold unassigned. intros Hstep H.
  destruct (sql_step_units _ _ Hstep)
    as [-> | [(row & -> & Hrow & _) | (ts & s & l & id & ->)]]; [done|..].
  - apply Forall_app. split; [done|]. by constructor.
  - apply Forall_fmap. eapply Forall_impl; [exact H|].
    intros u Hu. simpl. by case_bool_decide.
Qed.

Lemma sql_step_unique_unit_numbers db db' :
  sql_step db db' → unique_unit_numbers db → unique_unit_numbers db'.
Proof.
  unfold unique_unit_numbers. intros Hstep H.
  destruct (sql_step_units _ _ Hstep)
    as [-> | [(row & -> & _ & _ & Hrow) | (ts & s & l & id & ->)]]; [done|..].
  - rewrite fmap_app. apply NoDup_app. split; [done|]. split.
    + intros n Hn ->%list_elem_of_singleton. done.
    + apply NoDup_singleton.
  - rewrite <- list_fmap_compose.
    erewrite list_fmap_ext; [exact H|].
    intros i u _. simpl. by case_bool_decide.
Qed.

Lemma sql_step_unique_call_numbers db db' :
  sql_step db db' → unique_call_numbers db → unique_call_numbers db'.
Proof.
  unfold unique_call_numbers. intros Hstep H.
  destruct (sql_step_calls _ _ Hstep)
    as [-> | [(row & -> & _ & Hrow) | (id & ->)]]; [done|..].
  - rewrite fmap_app. apply NoDup_app. split; [done|]. split.
    + intros n Hn ->%list_elem_of_singleton. done.
    + apply NoDup_singleton.
  - eapply sublist_NoDup; [exact H|].
    apply fmap_sublist, sublist_filter.
Qed.

(** A request changes the database by one statement, or not at all. *)
Lemma step_sql db er : step db er = db ∨ sql_step db (step db er).
Proof.
  destruct er as [e r]. unfold step. cbn [fst snd].
  destruct (dispatch_cases e r db)
    as [(resp & db' & -> & Hstep) | [(exc & ->) | (m & ->)]]; auto.
Qed.

Lemma run_sql db rs : rtc sql_step db (run db rs).
Proof.
  revert db. induction rs as [|er rs IH]; intros db; [done|].
  unfold run. simpl. fold (run (step db er) rs).
  destruct (step_sql db er) as [-> | Hstep]; [apply IH|].
  eapply rtc_l; [exact Hstep|apply IH].
Qed.

Lemma rtc_sql_step_invariant (P : database → Prop) db db' :
  (∀ d d', sql_step d d' → P d → P d') →
  rtc sql_step db db' → P db → P db'.
Proof. intros Hstep. induction 1; eauto. Qed.

Lemma run_unassigned rs : unassigned (run empty_db rs).
Proof.
  eapply rtc_sql_step_invariant;
    [apply sql_step_unassigned|apply run_sql|constructor].
Qed.

Lemma run_unique_unit_numbers rs : unique_unit_numbers (run empty_db rs).
Proof.
  eapply rtc_sql_step_invariant;
    [apply sql_step_unique_unit_numbers|apply run_sql|constructor].
Qed.

Lemma run_unique_call_numbers rs : unique_call_numbers (run empty_db rs).
Proof.
  eapply rtc_sql_step_invariant;
    [apply sql_step_unique_call_numbers|apply run_sql|constructor].
Qed.

(** The same holds however the statements of concurrent handlers are
    interleaved, each statement being atomic: between the SELECT and the
    INSERT of [handle_add_unit] another connection may insert the number,
    and the INSERT then fails on the UNIQUE constraint. *)
Lemma interleaved_unique_unit_numbers db :
  rtc sql_step empty_db db → unique_unit_numbers db.
Proof.
  intros Hsteps. eapply rtc_sql_step_invariant;
    [apply sql_step_unique_unit_numbers|exact Hsteps|constructor].
Qed.

Lemma interleaved_unique_call_numbers db :
  rtc sql_step empty_db db → unique_call_numbers db.
Proof.
  intros Hsteps. eapply rtc_sql_step_invariant;
    [apply sql_step_unique_call_numbers|exact Hsteps|constructor].
Qed.



End Invariants.

(** ** Call numbers *)

Section CallNumbers.

Lemma length_append (s1 s2 : string) :
  String.length (s1 +:+ s2) = String.length s1 + String.length s2.
Proof. induction s1 as [|c s1 IH]; simpl; [done|]. by rewrite IH. Qed.

Lemma length_substring (n m : nat) (s : string) :
  (n + m ≤ String.length s)%nat → String.length (substring n m s) = m.
Proof.
  revert n m. induction s as [|c s IH]; intros n m; simpl.
  - intros H. assert (n = 0) as -> by lia. assert (m = 0) as -> by lia. done.
  - intros H. destruct n as [|n]; [destruct m as [|m]; [done|]|].
    + simpl. rewrite (IH 0 m) by lia. done.
    + apply IH. lia.
Qed.

Lemma length_upper (s : string) : String.length (upper s) = String.length s.
Proof. induction s as [|c s IH]; simpl; [done|]. by rewrite IH. Qed.

Lemma length_hex_fixed (w : nat) (n : N) : String.length (hex_fixed w n) = w.
Proof.
  revert n. induction w as [|w IH]; intros n; simpl; [done|].
  rewrite length_append, IH. simpl. lia.
Qed.

Lemma length_dec_fixed (w : nat) (n : N) : String.length (dec_fixed w n) = w.
Proof.
  revert n. induction w as [|w IH]; intros n; simpl; [done|].
  rewrite length_append, IH. simpl. lia.
Qed.

Lemma length_str_uuid (u : N) : String.length (str_uuid u) = 36.
Proof.
  unfold str_uuid.
  rewrite !length_append, !length_substring; rewrite ?length_hex_fixed;
    simpl; lia.
Qed.

Lemma length_strftime_Ymd (d : datetime) : String.length (strftime_Ymd d) = 8.
Proof.
  unfold strftime_Ymd. by rewrite !length_append, !length_dec_fixed.
Qed.

Lemma length_suffix (u : N) :
  String.length (upper (substring 0 4 (str_uuid u))) = 4.
Proof.
  rewrite length_upper, length_substring; [done|].
  rewrite length_str_uuid. lia.
Qed.

(** *** Texts and their prefixes *)

Lemma substring_prefix_append (m : nat) (s1 s2 : string) :
  (m ≤ String.length s1)%nat →
  substring 0 m (s1 +:+ s2) = substring 0 m s1.
Proof.
  revert m. induction s1 as [|c s1 IH]; intros m Hm; simpl in *.
  - assert (m = 0) as -> by lia. by destruct s2.
  - destruct m as [|m]; [done|]. rewrite IH by lia. done.
Qed.

Lemma substring_all (s : string) : substring 0 (String.length s) s = s.
Proof. induction s as [|c s IH]; simpl; [done|]. by rewrite IH. Qed.

Lemma substring_split (n a b : nat) (s : string) :
  substring n (a + b) s = substring n a s +:+ substring (n + a) b s.
Proof.
  revert n a. induction s as [|c s IH]; intros n a.
  - by destruct n, a, b.
  - destruct n as [|n]; simpl.
    + destruct a as [|a]; simpl; [done|]. by rewrite (IH 0 a).
    + apply IH.
Qed.

Lemma append_cons (c : ascii) (s1 s2 : string) :
  String c s1 +:+ s2 = String c (s1 +:+ s2).
Proof. reflexivity. Qed.

Lemma append_empty_r (s : string) : s +:+ "" = s.
Proof. induction s as [|c s IH]; [done|]. by rewrite append_cons, IH. Qed.

Lemma append_assoc (s1 s2 s3 : string) :
  (s1 +:+ s2) +:+ s3 = s1 +:+ (s2 +:+ s3).
Proof.
  induction s1 as [|c s1 IH]; [done|]. by rewrite !append_cons, IH.
Qed.

Lemma append_inj (s1 s2 t1 t2 : string) :
  String.length s1 = String.length s2 →
  s1 +:+ t1 = s2 +:+ t2 → s1 = s2 ∧ t1 = t2.
Proof.
  revert s2. induction s1 as [|c s1 IH]; intros [|c' s2]; simpl; try done.
  intros [= Hlen] [= -> H]. destruct (IH s2 Hlen H) as [-> ->]. done.
Qed.

(** The digits of a number, split in two. *)
Lemma hex_fixed_split (a b : nat) (n : N) :
  hex_fixed (a + b) n
  = hex_fixed a (n / 16 ^ N.of_nat b) +:+ hex_fixed b n.
Proof.
  revert n. induction b as [|b IH]; intros n.
  - rewrite Nat.add_0_r. simpl. by rewrite N.div_1_r, append_empty_r.
  - rewrite Nat.add_succ_r. simpl hex_fixed. rewrite IH, append_assoc.
    rewrite N.Div0.div_div.
    replace (16 ^ N.of_nat (S b))%N with (16 * 16 ^ N.of_nat b)%N; [done|].
    rewrite Nat2N.inj_succ, N.pow_succ_r'. done.
Qed.

Lemma hex_digit_inj (n m : N) :
  (n < 16)%N → (m < 16)%N → hex_digit n = hex_digit m → n = m.
Proof.
  intros Hn Hm.
  assert (∀ k, (k < 16)%N →
               k ∈ [0; 1; 2; 3; 4; 5; 6; 7; 8; 9; 10; 11; 12; 13; 14; 15]%N)
    as Hcases.
  { intros k Hk. destruct k as [|p]; [left|].
    do 16 (destruct p as [p|p|]; try lia; try (by repeat constructor)). }
  pose proof (Hcases n Hn) as Hn'. pose proof (Hcases m Hm) as Hm'.
  repeat (apply elem_of_cons in Hn' as [-> | Hn']);
    [..|by apply elem_of_nil in Hn'];
    repeat (apply elem_of_cons in Hm' as [-> | Hm']);
    try (by apply elem_of_nil in Hm'); done.
Qed.

Lemma hex_fixed_inj (w : nat) (n m : N) :
  (n < 16 ^ N.of_nat w)%N → (m < 16 ^ N.of_nat w)%N →
  hex_fixed w n = hex_fixed w m → n = m.
Proof.
  revert n m. induction w as [|w IH]; intros n m Hn Hm.
  - simpl in *. lia.
  - rewrite Nat2N.inj_succ, N.pow_succ_r' in Hn, Hm. simpl.
    intros [Hhigh Hlow]%append_inj; [|by rewrite !length_hex_fixed].
    injection Hlow as Hlow.
    apply hex_digit_inj in Hlow; [|by apply N.mod_lt..].
    apply IH in Hhigh; [|by apply N.Div0.div_lt_upper_bound..].
    rewrite (N.div_mod n 16), (N.div_mod m 16) by done. congruence.
Qed.

Lemma substring_whole (m : nat) (s : string) :
  String.length s = m → substring 0 m s = s.
Proof. intros <-. apply substring_all. Qed.

(** The first four characters of [str(u)] are the hex digits of the 16
    leading bits of [u]. *)
Lemma str_uuid_leading (u : N) :
  substring 0 4 (str_uuid u) = hex_fixed 4 ((u mod 2 ^ 128) / 2 ^ 112).
Proof.
  unfold str_uuid. generalize (u mod 2 ^ 128)%N. intros n.
  change 32 with (4 + 28).
  rewrite hex_fixed_split.
  change (16 ^ N.of_nat 28)%N with (2 ^ 112)%N.
  generalize (hex_fixed 4 (n / 2 ^ 112)) (length_hex_fixed 4 (n / 2 ^ 112)).
  intros top Htop. generalize (hex_fixed 28 n). intros low.
  change 8 with (4 + 4) at 1. rewrite substring_split.
  rewrite (substring_prefix_append 4 top low) by lia.
  rewrite (substring_whole 4 top) by done.
  rewrite append_assoc.
  rewrite substring_prefix_append by lia.
  by apply substring_whole.
Qed.

Local Opaque insert_call str_uuid strftime_Ymd select_calls.

Lemma insert_call_row ts id number priority type location description
    status name phone db db' :
  insert_call ts id number priority type location description status name
    phone db = Returned db' →
  unique_call_numbers db →
  ∃ row, calls db' = calls db ++ [row] ∧ call_id row = id
         ∧ call_created_at row = Some ts ∧ call_number row = number
         ∧ unique_call_numbers db'.
Proof.
  intros Hinsert Hunique.
  assert (unique_call_numbers db') as Hunique'.
  { eapply sql_step_unique_call_numbers; [|exact Hunique].
    eapply sql_insert_call, Hinsert. }
  apply insert_call_Returned in Hinsert
    as (? & ? & ? & ? & ? & ? & ? & _ & _ & _ & _ & _ & _ & _ & _ & _ & ->).
  eexists. by repeat split.
Qed.

(** C9 (as amended).  A Call created on either channel gets, in the row
    stored at its creation, the number made of CALL-, the date of
    [datetime.now()] on eight digits, a dash, and the first four characters
    of the text of a second uuid, in upper case: the four hex digits of its
    16 leading bits.  The numbers of the Calls stored after the creation
    are pairwise distinct. *)
Theorem call_number_assigned (rs : list (env * request)) (e : env)
    (r : request) (data : dict) :
  r = POST_calls data ∨ r = add_call data →
  accepted (dispatch e r (start (run empty_db rs))) = true →
  ∃ row,
    calls (step (run empty_db rs) (e, r)) = calls (run empty_db rs) ++ [row]
    ∧ call_id row = str_uuid (uuid4_first e)
    ∧ call_created_at row = Some (current_timestamp e)
    ∧ call_number row
      = "CALL-" +:+ strftime_Ymd (now e) +:+ "-"
        +:+ upper (substring 0 4 (str_uuid (uuid4_second e)))
    ∧ String.length (strftime_Ymd (now e)) = 8
    ∧ substring 0 4 (str_uuid (uuid4_second e))
      = hex_fixed 4 ((uuid4_second e mod 2 ^ 128) / 2 ^ 112)
    ∧ String.length (upper (substring 0 4 (str_uuid (uuid4_second e)))) = 4
    ∧ unique_call_numbers (step (run empty_db rs) (e, r)).
Proof.
  intros Hr.
  pose proof (run_unique_call_numbers rs) as Hunique.
  revert Hunique. generalize (run empty_db rs). intros db Hunique.
  unfold step. cbn [fst snd].
  assert (∀ db' number,
             insert_call (current_timestamp e) (str_uuid (uuid4_first e))
               (make_call_number (now e) (uuid4_second e)) number.1.1
               number.1.2 number.2
               (get data "description" (JStr ""))
               (get data "status" (JStr "New"))
               (get data "reporter_name" (JStr ""))
               (get data "reporter_phone" (JStr "")) db = Returned db' →
             ∃ row,
               calls db' = calls db ++ [row]
               ∧ call_id row = str_uuid (uuid4_first e)
               ∧ call_created_at row = Some (current_timestamp e)
               ∧ call_number row
                 = "CALL-" +:+ strftime_Ymd (now e) +:+ "-"
                   +:+ upper (substring 0 4 (str_uuid (uuid4_second e)))
               ∧ String.length (strftime_Ymd (now e)) = 8
               ∧ substring 0 4 (str_uuid (uuid4_second e))
                 = hex_fixed 4 ((uuid4_second e mod 2 ^ 128) / 2 ^ 112)
               ∧ String.length
                   (upper (substring 0 4 (str_uuid (uuid4_second e)))) = 4
               ∧ unique_call_numbers db') as Hinserted.
  { intros db' number Hinsert.
    destruct (insert_call_row _ _ _ _ _ _ _ _ _ _ _ _ Hinsert Hunique)
      as (row & Hcalls & Hid & Hcreated & Hnumber & Hunique').
    exists row.
    split; [exact Hcalls|]. split; [exact Hid|]. split; [exact Hcreated|].
    split; [exact Hnumber|]. split; [apply length_strftime_Ymd|].
    split; [apply str_uuid_leading|].
    split; [apply length_suffix|exact Hunique']. }
  destruct Hr as [-> | ->]; by_handler_equation e.
  - destruct (data !! "priority") as [priority|]; [|by simpl].
    destruct (data !! "call_type") as [type|]; [|by simpl].
    destruct (data !! "location") as [location|]; [|by simpl].
    destruct (insert_call _ _ _ _ _ _ _ _ _ _ _) as [db'|exc] eqn:Hinsert;
      [|by simpl].
    intros _. apply (Hinserted db' (priority, type, location) Hinsert).
  - destruct (data !! "priority") as [priority|]; [|by simpl].
    destruct (data !! "type") as [type|]; [|by simpl].
    destruct (data !! "location") as [location|]; [|by simpl].
    destruct (insert_call _ _ _ _ _ _ _ _ _ _ _) as [db'|exc] eqn:Hinsert;
      [|by simpl].
    intros _. apply (Hinserted db' (priority, type, location) Hinsert).
Qed.

(** The theorem at the second Call of a session: a Call is stored, and a
    Call created the next day on the push channel gets another number. *)
Lemma call_number_assigned_witness :
  let mva : dict := {[ "priority" := JStr "High"; "call_type" := JStr "MVA";
                       "location" := JStr "5th&Main" ]} in
  let alarm : dict := {[ "priority" := JStr "Low"; "type" := JStr "Alarm";
                         "location" := JStr "Dock 4" ]} in
  let rs := [(sample_env, POST_calls mva)] in
  accepted (dispatch third_env (add_call alarm) (start (run empty_db rs)))
  = true
  ∧ call_number <$> calls (step (run empty_db rs) (third_env, add_call alarm))
    = ["CALL-20240307-9F3C"; "CALL-20240308-3E2A"]
  ∧ ∃ row,
      calls (step (run empty_db rs) (third_env, add_call alarm))
      = calls (run empty_db rs) ++ [row]
      ∧ call_id row = str_uuid (uuid4_first third_env)
      ∧ call_created_at row = Some (current_timestamp third_env)
      ∧ call_number row
        = "CALL-" +:+ strftime_Ymd (now third_env) +:+ "-"
          +:+ upper (substring 0 4 (str_uuid (uuid4_second third_env)))
      ∧ String.length (strftime_Ymd (now third_env)) = 8
      ∧ substring 0 4 (str_uuid (uuid4_second third_env))
        = hex_fixed 4 ((uuid4_second third_env mod 2 ^ 128) / 2 ^ 112)
      ∧ String.length
          (upper (substring 0 4 (str_uuid (uuid4_second third_env)))) = 4
      ∧ unique_call_numbers
          (step (run empty_db rs) (third_env, add_call alarm)).
Proof.
  intros mva alarm rs.
  assert (accepted (dispatch third_env (add_call alarm)
                      (start (run empty_db rs))) = true) as Hacc
    by (by vm_compute).
  split; [exact Hacc|]. split; [by vm_compute|].
  exact (call_number_assigned rs third_env (add_call alarm) alarm
           (or_intror eq_refl) Hacc).
Defined.

(** C9, as stated, fails: once a Call is deleted, its number can be given
    to another Call, here one created the same day from a uuid that starts
    with the same four digits. *)
Lemma call_number_assigned_twice :
  let data : dict := {[ "priority" := JStr "High"; "call_type" := JStr "MVA";
                        "location" := JStr "5th&Main" ]} in
  let first := create_call sample_env data (start empty_db) in
  let deleted :=
    delete_call "1b4e28ba-2fa1-11d2-883f-0016d3cca427"
      (start (committed first.2)) in
  let second := create_call later_env data (start (committed deleted.2)) in
  first.1 = Returned (CreatedCall "1b4e28ba-2fa1-11d2-883f-0016d3cca427"
                        "CALL-20240307-9F3C" "Call created successfully")
  ∧ second.1 = Returned (CreatedCall "6ba7b810-9dad-11d1-80b4-00c04fd430c8"
                           "CALL-20240307-9F3C" "Call created successfully").
Proof. by vm_compute. Qed.

End CallNumbers.

(** ** Unit numbers *)

Section UnitNumbers.

Local Opaque str_uuid select_units.

Lemma bindable_bind_text v :
  bindable v = true → ∃ c, bind_text v = Returned c.
Proof. unfold bindable, bind_text. destruct (bind v); [eauto|done]. Qed.

Lemma bindable_not_null v :
  bindable v = true → is_null v = false → ∃ s, bind_text v = Returned (Some s).
Proof.
  unfold bindable, bind_text.
  destruct v as [|b|z|s|l|l]; simpl; try done; try by eauto.
  destruct (_ && _); [eauto|done].
Qed.

Lemma truthy_not_null v : truthy v = true → is_null v = false.
Proof. by destruct v. Qed.

(** With its other parameters in order, an INSERT of a stored number fails
    on a UNIQUE constraint. *)
Lemma insert_unit_conflict ts id number type status location db n t s l :
  bind_text number = Returned (Some n) →
  bind_text type = Returned (Some t) →
  bind_text status = Returned s →
  bind_text location = Returned l →
  n ∈ (unit_number <$> units db) →
  insert_unit ts id number type status location db
  = Raised (IntegrityError UniqueFailed).
Proof.
  intros Hn Ht Hs Hl Hin.
  unfold insert_unit, mbind, result_bind, not_null, unique.
  rewrite Hn, Ht, Hs, Hl.
  case_bool_decide; [done|]. by rewrite bool_decide_eq_true_2.
Qed.

Lemma select_unit_id_stored number db n :
  bind_text number = Returned (Some n) →
  n ∈ (unit_number <$> units db) →
  ∃ id, select_unit_id_where_number number db = Returned (Some id).
Proof.
  intros Hn Hin.
  destruct (select_unit_id_where_number number db) as [r|exc] eqn:E.
  - apply select_unit_id_where_number_Returned in E as (c & Hc & Hsome & _).
    destruct Hsome as [_ [id ->]]; [|by eauto].
    exists n. split; congruence.
  - unfold select_unit_id_where_number, mbind, result_bind in E.
    by rewrite Hn in E.
Qed.

Lemma select_unit_id_not_stored number db n :
  bind_text number = Returned (Some n) →
  n ∉ (unit_number <$> units db) →
  select_unit_id_where_number number db = Returned None.
Proof.
  intros Hn Hnot.
  destruct (select_unit_id_where_number number db) as [r|exc] eqn:E.
  - apply select_unit_id_where_number_Returned in E as (c & Hc & Hsome & _).
    destruct r as [id|]; [|done].
    destruct Hsome as [(n' & -> & Hin) _]; [by eauto|]. congruence.
  - unfold select_unit_id_where_number, mbind, result_bind in E.
    by rewrite Hn in E.
Qed.

(** A create-Unit request whose number is stored is rejected and nothing is
    written; with its other fields in order, the failure is a conflict. *)
Lemma stored_number_rejected e r db n :
  carries_unit_number n r →
  n ∈ (unit_number <$> units db) →
  accepted (dispatch e r (start db)) = false
  ∧ step db (e, r) = db
  ∧ (valid_unit_fields r = true →
     failure (dispatch e r (start db)) = Some ConflictError).
Proof.
  intros (v & Hv & Hn) Hin. unfold step. cbn [fst snd].
  destruct r as [data| | | | | | | |data| | |]; try done; simpl in Hv;
    by_handler_equation e; unfold valid_unit_fields; rewrite Hv.
  - destruct (data !! "unit_type") as [type|]; [|done].
    destruct (insert_unit_number_stored (current_timestamp e)
                (str_uuid (uuid4_first e)) v type
                (get data "status" (JStr "Available"))
                (get data "location" (JStr "")) db n Hn Hin) as [exc Hexc].
    rewrite Hexc. simpl. split; [done|]. split; [done|].
    rewrite !andb_true_iff, negb_true_iff.
    intros [[[Ht Hnull] Hs] Hl].
    apply bindable_not_null in Ht as [t Ht]; [|done].
    apply bindable_bind_text in Hs as [s Hs].
    apply bindable_bind_text in Hl as [l Hl].
    erewrite insert_unit_conflict in Hexc by done. by simplify_eq.
  - destruct (select_unit_id_stored v db n Hn Hin) as [id ->].
    destruct (_ || _) eqn:Hfalsy; simpl.
    + split; [done|]. split; [done|].
      rewrite !andb_true_iff. intros [[[[Hnum Hty] _] _] _].
      by rewrite Hnum, Hty in Hfalsy.
    + done.
Qed.

(** A create-Unit request either is accepted and its number is stored from
    then on, or is rejected and changes nothing. *)
Lemma create_unit_step e r db n :
  carries_unit_number n r →
  (accepted (dispatch e r (start db)) = true
   ∧ n ∈ (unit_number <$> units (step db (e, r))))
  ∨ (accepted (dispatch e r (start db)) = false ∧ step db (e, r) = db).
Proof.
  intros (v & Hv & Hn). unfold step. cbn [fst snd].
  assert (∀ db' type,
             insert_unit (current_timestamp e) (str_uuid (uuid4_first e))
               v type (get (request_data r) "status" (JStr "Available"))
               (get (request_data r) "location" (JStr "")) db = Returned db' →
             n ∈ (unit_number <$> units db')) as Hstored.
  { intros db' type
      (n' & ? & ? & ? & Hn' & _ & _ & _ & _ & _ & ->)%insert_unit_Returned.
    simpl. rewrite fmap_app. apply elem_of_app. right.
    apply list_elem_of_singleton. simpl. congruence. }
  destruct r as [data| | | | | | | |data| | |]; try done;
    simpl in Hv, Hstored; by_handler_equation e; rewrite Hv.
  - destruct (data !! "unit_type") as [type|]; [|by right].
    destruct (insert_unit _ _ _ _ _ _ _) as [db'|exc] eqn:E; [|by right].
    left. simpl. split; [done|]. by eapply Hstored.
  - destruct (_ || _); [by right|].
    destruct (select_unit_id_where_number v db) as [[id|]|exc];
      [by right| |by right].
    destruct (data !! "type") as [type|]; [|by right].
    destruct (insert_unit _ _ _ _ _ _ _) as [db'|exc] eqn:E; [|by right].
    left. simpl. split; [done|]. by eapply Hstored.
Qed.

(** With a new number, a new id and its fields in order, a create-Unit
    request is accepted. *)
Lemma new_number_accepted e r db n :
  carries_unit_number n r →
  valid_unit_fields r = true →
  n ∉ (unit_number <$> units db) →
  str_uuid (uuid4_first e) ∉ (unit_id <$> units db) →
  accepted (dispatch e r (start db)) = true.
Proof.
  intros (v & Hv & Hn) Hvalid Hnew Hid.
  assert (∀ type status location,
             bindable type = true → is_null type = false →
             bindable status = true → bindable location = true →
             ∃ db', insert_unit (current_timestamp e)
                      (str_uuid (uuid4_first e)) v type status location db
                    = Returned db') as Hinsert.
  { intros type status location Ht Hnull [s Hs]%bindable_bind_text
      [l Hl]%bindable_bind_text.
    destruct (bindable_not_null _ Ht Hnull) as [t Ht'].
    eexists. apply insert_unit_Returned. by exists n, t, s, l. }
  destruct r as [data| | | | | | | |data| | |]; try done;
    simpl in Hv, Hvalid; by_handler_equation e; rewrite Hv; revert Hvalid.
  - destruct (data !! "unit_type") as [type|]; [|done].
    rewrite !andb_true_iff, negb_true_iff.
    intros [[[Ht Hnull] Hs] Hl].
    by destruct (Hinsert type _ _ Ht Hnull Hs Hl) as [db' ->].
  - rewrite !andb_true_iff. intros [[[[Hnum Hty] Ht] Hs] Hl].
    rewrite Hnum, Hty. simpl.
    rewrite (select_unit_id_not_stored v db n) by done.
    destruct (data !! "type") as [type|] eqn:Htype;
      [|by unfold get in Hty; rewrite Htype in Hty].
    unfold get in Hty, Ht. rewrite Htype in Hty, Ht.
    by destruct (Hinsert type _ _ Ht (truthy_not_null _ Hty) Hs Hl)
      as [db' ->].
Qed.

Lemma successes_cons db er rs :
  successes db (er :: rs)
  = (if accepted (dispatch er.1 er.2 (start db)) then 1 else 0)
    + successes (step db er) rs.
Proof.
  unfold successes. simpl.
  destruct (accepted _); [by rewrite filter_cons_True|].
  by rewrite filter_cons_False.
Qed.

(** Once the number is stored, every request of the sequence is rejected. *)
Lemma stored_number_all_rejected db n rs :
  Forall (fun er => carries_unit_number n er.2) rs →
  n ∈ (unit_number <$> units db) →
  serve db rs = replicate (length rs) false ∧ run db rs = db
  ∧ successes db rs = 0.
Proof.
  intros Hrs Hin. induction Hrs as [|[e r] rs Hr _ IH]; [done|].
  destruct (stored_number_rejected e r db n Hr Hin) as (Hrej & Hstep & _).
  rewrite successes_cons. unfold run. simpl. fold (run (step db (e, r)) rs).
  rewrite Hrej, Hstep. destruct IH as (-> & -> & ->). done.
Qed.

Lemma successes_at_most_one db n rs :
  Forall (fun er => carries_unit_number n er.2) rs →
  (successes db rs ≤ 1)%nat.
Proof.
  intros Hrs. revert db. induction Hrs as [|[e r] rs Hr Hrs IH]; intros db.
  - unfold successes. simpl. lia.
  - rewrite successes_cons. cbn [fst snd].
    destruct (create_unit_step e r db n Hr) as [[-> Hin] | [-> ->]].
    + destruct (stored_number_all_rejected _ n rs Hrs Hin) as (_ & _ & ->).
      lia.
    + apply IH.
Qed.

Lemma bind_Raised v exc :
  bind v = Raised exc → exc ≠ IntegrityError UniqueFailed.
Proof. destruct v; simpl; try done; [case_match|..]; naive_solver. Qed.

(** With a stored number, the INSERT fails on the UNIQUE constraint when
    its other parameters can be bound and the type is not NULL, and on the
    fault of that other parameter if not. *)
Lemma insert_unit_stored_number ts id number type status location db n :
  bind_text number = Returned (Some n) →
  n ∈ (unit_number <$> units db) →
  if bindable type && negb (is_null type) && bindable status
     && bindable location
  then insert_unit ts id number type status location db
       = Raised (IntegrityError UniqueFailed)
  else ∃ exc, insert_unit ts id number type status location db = Raised exc
              ∧ exc ≠ IntegrityError UniqueFailed.
Proof.
  intros Hn Hin.
  destruct (bindable type && negb (is_null type) && bindable status
            && bindable location) eqn:Hvalid.
  - apply andb_true_iff in Hvalid as [Hvalid Hl].
    apply andb_true_iff in Hvalid as [Hvalid Hs].
    apply andb_true_iff in Hvalid as [Ht Hnull].
    apply negb_true_iff in Hnull.
    apply bindable_not_null in Ht as [t Ht]; [|done].
    apply bindable_bind_text in Hs as [s Hs].
    apply bindable_bind_text in Hl as [l Hl].
    by eapply insert_unit_conflict.
  - unfold insert_unit, mbind, result_bind. rewrite Hn.
    revert Hvalid. unfold bindable, bind_text.
    destruct (bind type) as [t|exc] eqn:Et; simpl;
      [|by eauto using bind_Raised].
    destruct (bind status) as [s|exc] eqn:Es; simpl;
      [|by eauto using bind_Raised].
    destruct (bind location) as [l|exc] eqn:El; simpl;
      [|rewrite andb_false_r; by eauto using bind_Raised].
    rewrite !andb_true_r. intros Hnull%negb_false_iff.
    destruct type; try done. simpl in *. simplify_eq/=. by eauto.
Qed.

(** What a create-Unit request with a stored number ends on: the route
    raises, on the UNIQUE constraint when its other fields are in order;
    the event handler reports that the Unit exists as soon as the number
    and the type are truthy, before anything else is bound. *)
Lemma stored_number_outcome e r db n :
  carries_unit_number n r →
  n ∈ (unit_number <$> units db) →
  match r with
  | POST_units d =>
      if valid_unit_fields r
      then dispatch e r (start db)
           = (Raised (IntegrityError UniqueFailed), start db)
      else ∃ exc, dispatch e r (start db) = (Raised exc, start db)
                  ∧ exc ≠ IntegrityError UniqueFailed
  | add_unit d =>
      dispatch e r (start db)
      = (Returned None,
         refused db (if truthy (get d "number" JNull)
                        && truthy (get d "type" JNull)
                     then AlreadyExists (get d "number" JNull)
                     else RequiredFields))
  | _ => True
  end.
Proof.
  intros (v & Hv & Hn) Hin.
  destruct r as [data| | | | | | | |data| | |]; try done; simpl in Hv;
    by_handler_equation e; unfold valid_unit_fields; rewrite ?Hv.
  - destruct (data !! "unit_type") as [type|]; simpl;
      [|by eexists].
    pose proof (insert_unit_stored_number (current_timestamp e)
                  (str_uuid (uuid4_first e)) v type
                  (get data "status" (JStr "Available"))
                  (get data "location" (JStr "")) db n Hn Hin) as Hins.
    destruct (_ && _ && _ && _).
    + by rewrite Hins.
    + destruct Hins as (exc & -> & Hexc). by eexists.
  - assert (get data "number" JNull = v) as -> by (unfold get; by rewrite Hv).
    destruct (truthy v); [|done].
    destruct (truthy (get data "type" JNull)); [|done]. simpl.
    by destruct (select_unit_id_stored v db n Hn Hin) as [id ->].
Qed.

(** C1 (as amended).  Of a sequence of create-Unit requests that carry one
    unit number, on either channel, at most one is accepted.  When a Unit
    with that number is stored, all are rejected and the database stays as
    it is.  The route then raises the [IntegrityError] of the UNIQUE
    constraint when the other fields of the request are in order, and the
    exception of the faulty field if not (it is met first).  The event
    handler then reports that the Unit already exists whenever the number
    and the type are truthy, whatever the other fields are, and that number
    and type are required if not.  When no Unit has the number, the first
    request is accepted if its fields are in order and its new id is free,
    and it is the only one. *)
Theorem unit_number_conflict (n : string) (db : database)
    (rs : list (env * request)) :
  Forall (fun er => carries_unit_number n er.2) rs →
  (successes db rs ≤ 1)%nat
  ∧ (n ∈ (unit_number <$> units db) →
     run db rs = db
     ∧ Forall (fun er =>
                 let out := dispatch er.1 er.2 (start db) in
                 accepted out = false
                 ∧ match er.2 with
                   | POST_units d =>
                       if valid_unit_fields er.2
                       then out
                            = (Raised (IntegrityError UniqueFailed), start db)
                       else ∃ exc, out = (Raised exc, start db)
                                   ∧ exc ≠ IntegrityError UniqueFailed
                   | add_unit d =>
                       out
                       = (Returned None,
                          refused db
                            (if truthy (get d "number" JNull)
                                && truthy (get d "type" JNull)
                             then AlreadyExists (get d "number" JNull)
                             else RequiredFields))
                   | _ => True
                   end) rs)
  ∧ (n ∉ (unit_number <$> units db) →
     ∀ e r rest,
       rs = (e, r) :: rest →
       valid_unit_fields r = true →
       str_uuid (uuid4_first e) ∉ (unit_id <$> units db) →
       serve db rs = true :: replicate (length rest) false
       ∧ successes db rs = 1).
Proof.
  intros Hrs. split; [by eapply successes_at_most_one|]. split.
  - intros Hin. split; [by eapply stored_number_all_rejected|].
    eapply Forall_impl; [exact Hrs|].
    intros [e r] Hr. cbn [fst snd] in *. split.
    + by destruct (stored_number_rejected e r db n Hr Hin) as (? & _ & _).
    + apply (stored_number_outcome e r db n Hr Hin).
  - intros Hnew e r rest -> Hvalid Hid.
    apply Forall_cons in Hrs as [Hr Hrest]. cbn [fst snd] in Hr.
    pose proof (new_number_accepted e r db n Hr Hvalid Hnew Hid) as Hacc.
    destruct (create_unit_step e r db n Hr) as [[_ Hin] | [Hrej _]];
      [|congruence].
    destruct (stored_number_all_rejected _ n rest Hrest Hin)
      as (Hserve & _ & Hzero).
    rewrite successes_cons. simpl. by rewrite Hacc, Hserve, Hzero.
Qed.

(** The theorem at two moments of a session.  From the empty database,
    Unit M-12 is created as a Medic by the route and asked again as a Fire
    unit on the push channel: the first request is the one accepted.  With
    M-12 stored, an event that gives a list as the type of the Unit is told
    that the Unit exists, and a request to the route with the same fields
    ends on the binding fault of the type. *)
Lemma unit_number_conflict_witness :
  let medic : dict := {[ "unit_number" := JStr "M-12";
                         "unit_type" := JStr "Medic" ]} in
  let fire : dict := {[ "number" := JStr "M-12"; "type" := JStr "Fire" ]} in
  let pushed : dict := {[ "number" := JStr "M-12";
                          "type" := JArr [JStr "x"] ]} in
  let posted : dict := {[ "unit_number" := JStr "M-12";
                          "unit_type" := JArr [JStr "x"] ]} in
  let rs := [(sample_env, POST_units medic); (later_env, add_unit fire)] in
  let db := run empty_db [(sample_env, POST_units medic)] in
  let again := [(later_env, add_unit pushed); (third_env, POST_units posted);
                (third_env, POST_units medic)] in
  (Forall (fun er => carries_unit_number "M-12" er.2) rs
   ∧ serve empty_db rs = [true; false]
   ∧ successes empty_db rs = 1)
  ∧ (Forall (fun er => carries_unit_number "M-12" er.2) again
     ∧ unit_number <$> units db = ["M-12"]
     ∧ run db again = db
     ∧ dispatch later_env (add_unit pushed) (start db)
       = (Returned None, refused db (AlreadyExists (JStr "M-12")))
     ∧ dispatch third_env (POST_units posted) (start db)
       = (Raised InterfaceError, start db)
     ∧ dispatch third_env (POST_units medic) (start db)
       = (Raised (IntegrityError UniqueFailed), start db)).
Proof.
  intros medic fire pushed posted rs db again.
  assert (Forall (fun er => carries_unit_number "M-12" er.2) rs) as Hrs
    by (repeat constructor; eexists; split; reflexivity).
  assert (Forall (fun er => carries_unit_number "M-12" er.2) again) as Hagain
    by (repeat constructor; eexists; split; reflexivity).
  assert ("M-12" ∈ (unit_number <$> units db)) as Hin
    by (vm_compute; left).
  split.
  - split; [exact Hrs|].
    destruct (unit_number_conflict "M-12" empty_db rs Hrs) as (_ & _ & Hnew).
    apply (Hnew (not_elem_of_nil _) sample_env (POST_units medic)
             [(later_env, add_unit fire)] eq_refl eq_refl
             (not_elem_of_nil _)).
  - split; [exact Hagain|]. split; [by vm_compute|].
    destruct (unit_number_conflict "M-12" db again Hagain)
      as (_ & Hstored & _).
    destruct (Hstored Hin) as [Hrun Hall].
    split; [exact Hrun|]. clear. vm_compute. by repeat split.
Defined.

(** C1, as stated, fails.  With Unit M-12 stored, an event that carries the
    number and no type is answered that number and type are required, not
    that the Unit exists; the route, asked the same, stops on the
    [KeyError] of the type, not on the UNIQUE constraint.  And of two such
    requests for a number that is not stored, none is accepted. *)
Lemma stored_number_without_type :
  let medic : dict := {[ "unit_number" := JStr "M-12";
                         "unit_type" := JStr "Medic" ]} in
  let db := run empty_db [(sample_env, POST_units medic)] in
  let pushed : dict := {[ "number" := JStr "M-12" ]} in
  let posted : dict := {[ "unit_number" := JStr "M-12" ]} in
  (unit_number_of (add_unit pushed) = Some (JStr "M-12")
   ∧ unit_number_of (POST_units posted) = Some (JStr "M-12")
   ∧ bind_text (JStr "M-12") = Returned (Some "M-12")
   ∧ unit_number <$> units db = ["M-12"])
  ∧ dispatch later_env (add_unit pushed) (start db)
    = (Returned None, refused db RequiredFields)
  ∧ dispatch later_env (POST_units posted) (start db)
    = (Raised (KeyError "unit_type"), start db)
  ∧ serve empty_db [(sample_env, add_unit pushed);
                    (later_env, POST_units posted)] = [false; false]
  ∧ successes empty_db [(sample_env, add_unit pushed);
                        (later_env, POST_units posted)] = 0.
Proof. by vm_compute. Qed.

End UnitNumbers.

(** * More of the program *)

(** ** Each request and its own table *)

Section Tables.

Local Opaque str_uuid make_call_number select_units select_calls
  select_bolos select_notes.

Lemma insert_bolo_Returned ts id ttl description type priority status
    expires creator db db' :
  insert_bolo ts id ttl description type priority status expires creator db
    = Returned db' ↔
  ∃ t d ty p s ex c,
    bind_text ttl = Returned (Some t)
    ∧ bind_text description = Returned (Some d)
    ∧ bind_text type = Returned (Some ty)
    ∧ bind_text priority = Returned p ∧ bind_text status = Returned s
    ∧ bind expires = Returned ex ∧ bind_text creator = Returned c
    ∧ (id ∉ bolo_id <$> bolos db)
    ∧ db' = {| units := units db; calls := calls db;
               bolos := bolos db ++ [ {| bolo_id := id; title := t;
                                         bolo_description := d;
                                         bolo_type := ty;
                                         bolo_priority := p;
                                         bolo_status := s;
                                         bolo_created_at := Some ts;
                                         expires_at := ex;
                                         bolo_created_by := c |} ];
               notes := notes db |}.
Proof.
  unfold insert_bolo, not_null, unique.
  unfold mbind, result_bind, mret, result_ret.
  destruct (bind_text ttl) as [[?|]|];
    destruct (bind_text description) as [[?|]|];
    destruct (bind_text type) as [[?|]|]; destruct (bind_text priority);
    destruct (bind_text status); destruct (bind expires);
    destruct (bind_text creator);
    repeat case_bool_decide; naive_solver.
Qed.

Lemma insert_note_Returned ts id call unit type text creator db db' :
  insert_note ts id call unit type text creator db = Returned db' ↔
  ∃ c u ty tx cr,
    bind_text call = Returned c ∧ bind_text unit = Returned u
    ∧ bind_text type = Returned (Some ty)
    ∧ bind_text text = Returned (Some tx)
    ∧ bind_text creator = Returned cr
    ∧ (id ∉ note_id <$> notes db)
    ∧ db' = {| units := units db; calls := calls db; bolos := bolos db;
               notes := notes db ++ [ {| note_id := id; note_call_id := c;
                                         note_unit_id := u; note_type := ty;
                                         content := tx;
                                         note_created_at := Some ts;
                                         note_created_by := cr |} ] |}.
Proof.
  unfold insert_note, not_null, unique.
  unfold mbind, result_bind, mret, result_ret.
  destruct (bind_text call); destruct (bind_text unit);
    destruct (bind_text type) as [[?|]|]; destruct (bind_text text) as [[?|]|];
    destruct (bind_text creator);
    repeat case_bool_decide; naive_solver.
Qed.

(** What one statement does to table [bolos]. *)
Lemma sql_step_bolos db db' :
  sql_step db db' →
  bolos db' = bolos db
  ∨ (∃ row, bolos db' = bolos db ++ [row]
            ∧ (bolo_id row ∉ bolo_id <$> bolos db))
  ∨ (∃ id, bolos db' = filter (fun b => bolo_id b ≠ id) (bolos db)).
Proof.
  destruct 1 as [? ? ? ? ? ? ? E|? ? ? ? ? E|? ? ? ? ? ? ? ? ? ? ? E|
                 |? ? ? ? ? ? ? ? ? ? E| |? ? ? ? ? ? ? ? E|]; auto.
  - apply insert_unit_Returned in E
      as (n & t & s & l & _ & _ & _ & _ & _ & _ & ->). by left.
  - apply update_unit_where_id_Returned in E as (s & l & _ & _ & ->).
    by left.
  - apply insert_call_Returned in E
      as (? & ? & ? & ? & ? & ? & ? & _ & _ & _ & _ & _ & _ & _ & _ & _ & ->).
    by left.
  - apply insert_bolo_Returned in E
      as (? & ? & ? & ? & ? & ? & ? & _ & _ & _ & _ & _ & _ & _ & Hid & ->).
    right; left. eexists. by split.
  - right; right. by eexists.
  - apply insert_note_frame in E as (_ & _ & ->). by left.
Qed.

(** What one statement does to table [notes]. *)
Lemma sql_step_notes db db' :
  sql_step db db' →
  notes db' = notes db
  ∨ (∃ row, notes db' = notes db ++ [row]
            ∧ (note_id row ∉ note_id <$> notes db))
  ∨ (∃ id, notes db' = filter (fun n => note_id n ≠ id) (notes db)).
Proof.
  destruct 1 as [? ? ? ? ? ? ? E|? ? ? ? ? E|? ? ? ? ? ? ? ? ? ? ? E|
                 |? ? ? ? ? ? ? ? ? ? E| |? ? ? ? ? ? ? ? E|]; auto.
  - apply insert_unit_Returned in E
      as (n & t & s & l & _ & _ & _ & _ & _ & _ & ->). by left.
  - apply update_unit_where_id_Returned in E as (s & l & _ & _ & ->).
    by left.
  - apply insert_call_Returned in E
      as (? & ? & ? & ? & ? & ? & ? & _ & _ & _ & _ & _ & _ & _ & _ & _ & ->).
    by left.
  - apply insert_bolo_frame in E as (_ & _ & ->). by left.
  - apply insert_note_Returned in E
      as (? & ? & ? & ? & ? & _ & _ & _ & _ & _ & Hid & ->).
    right; left. eexists. by split.
  - right; right. by eexists.
Qed.

Lemma NoDup_snoc_fresh {A} (l : list A) (x : A) :
  NoDup l → x ∉ l → NoDup (l ++ [x]).
Proof.
  intros Hl Hx. apply NoDup_app. split; [done|]. split.
  - intros y Hy ->%list_elem_of_singleton. done.
  - apply NoDup_singleton.
Qed.

Lemma NoDup_filter_fmap {A} (key : A → string) (P : A → Prop)
    `{!∀ x, Decision (P x)} (rows : list A) :
  NoDup (key <$> rows) → NoDup (key <$> filter P rows).
Proof.
  intros Hrows. eapply sublist_NoDup; [exact Hrows|].
  apply fmap_sublist, sublist_filter.
Qed.

Lemma sql_step_unique_ids db db' :
  sql_step db db' → unique_ids db → unique_ids db'.
Proof.
  intros Hstep (Hu & Hc & Hb & Hn). repeat split.
  - destruct (sql_step_units _ _ Hstep)
      as [-> | [(row & -> & _ & Hid & _) | (ts & s & l & id & ->)]]; [done|..].
    + rewrite fmap_app. by apply NoDup_snoc_fresh.
    + rewrite <- list_fmap_compose.
      erewrite list_fmap_ext; [exact Hu|].
      intros i u _. simpl. by case_bool_decide.
  - destruct (sql_step_calls _ _ Hstep)
      as [-> | [(row & -> & Hid & _) | (id & ->)]]; [done|..].
    + rewrite fmap_app. by apply NoDup_snoc_fresh.
    + by apply NoDup_filter_fmap.
  - destruct (sql_step_bolos _ _ Hstep)
      as [-> | [(row & -> & Hid) | (id & ->)]]; [done|..].
    + rewrite fmap_app. by apply NoDup_snoc_fresh.
    + by apply NoDup_filter_fmap.
  - destruct (sql_step_notes _ _ Hstep)
      as [-> | [(row & -> & Hid) | (id & ->)]]; [done|..].
    + rewrite fmap_app. by apply NoDup_snoc_fresh.
    + by apply NoDup_filter_fmap.
Qed.

(** X1.  Whatever the order in which the statements of concurrent handlers
    reach the database, starting from the empty one, the ids of the rows
    of each table are pairwise distinct. *)
Theorem ids_stay_unique (db : database) :
  rtc sql_step empty_db db → unique_ids db.
Proof.
  intros Hsteps. eapply rtc_sql_step_invariant;
    [apply sql_step_unique_ids|exact Hsteps|].
  repeat split; constructor.
Qed.

(** The theorem at the database a session of eight accepted requests
    leaves: two rows in each table. *)
Lemma ids_stay_unique_witness :
  let db := run empty_db session in
  rtc sql_step empty_db db
  ∧ (length (units db), length (calls db), length (bolos db),
     length (notes db)) = (2, 2, 2, 2)
  ∧ unique_ids db.
Proof.
  intros db.
  assert (rtc sql_step empty_db db) as H by apply run_sql.
  split; [exact H|]. split; [by vm_compute|]. exact (ids_stay_unique db H).
Defined.

(** X2.  In the same setting, no two Units have the same unit number and no
    two Calls the same call number. *)
Theorem numbers_stay_unique (db : database) :
  rtc sql_step empty_db db → unique_unit_numbers db ∧ unique_call_numbers db.
Proof.
  intros Hsteps. split.
  - by apply interleaved_unique_unit_numbers.
  - by apply interleaved_unique_call_numbers.
Qed.

(** The theorem at the database of the same session: Units M-12 and E-7,
    and two Calls numbered on two days. *)
Lemma numbers_stay_unique_witness :
  let db := run empty_db session in
  rtc sql_step empty_db db
  ∧ unit_number <$> units db = ["M-12"; "E-7"]
  ∧ call_number <$> calls db = ["CALL-20240307-9F3C"; "CALL-20240308-3E2A"]
  ∧ unique_unit_numbers db ∧ unique_call_numbers db.
Proof.
  intros db.
  assert (rtc sql_step empty_db db) as H by apply run_sql.
  split; [exact H|]. split; [by vm_compute|]. split; [by vm_compute|].
  exact (numbers_stay_unique db H).
Defined.

End Tables.

(** ** Creating and deleting rows *)

Section Rows.

Local Opaque str_uuid make_call_number select_units select_calls
  select_bolos select_notes.

Lemma database_eta db :
  {| units := units db; calls := calls db; bolos := bolos db;
     notes := notes db |} = db.
Proof. by destruct db. Qed.

Lemma fmap_filter_key {A} (key : A → string) (id : string) (rows : list A) :
  key <$> filter (fun x => key x ≠ id) rows
  = filter (fun k => k ≠ id) (key <$> rows).
Proof.
  induction rows as [|x rows IH]; [done|].
  rewrite fmap_cons. destruct (decide (key x = id)) as [Heq|Hne].
  - by rewrite !filter_cons_False by (by intros []).
  - by rewrite !filter_cons_True, fmap_cons, IH by done.
Qed.

Lemma filter_snoc_key {A} (key : A → string) (rows : list A) (row : A) :
  key row ∉ (key <$> rows) →
  filter (fun x => key x ≠ key row) (rows ++ [row]) = rows.
Proof.
  intros Hnew. rewrite filter_app, filter_absent_id by done.
  rewrite filter_cons_False by (by intros []). by rewrite app_nil_r.
Qed.

(** What an accepted create request has done, kind by kind. *)
Lemma create_accepted e r db :
  is_create r = true →
  accepted (dispatch e r (start db)) = true →
  match r with
  | POST_units _ | add_unit _ =>
      ∃ row, step db (e, r)
             = {| units := units db ++ [row]; calls := calls db;
                  bolos := bolos db; notes := notes db |}
             ∧ unit_id row = str_uuid (uuid4_first e)
             ∧ (unit_id row ∉ unit_id <$> units db)
  | POST_calls _ | add_call _ =>
      ∃ row, step db (e, r)
             = {| units := units db; calls := calls db ++ [row];
                  bolos := bolos db; notes := notes db |}
             ∧ call_id row = str_uuid (uuid4_first e)
             ∧ (call_id row ∉ call_id <$> calls db)
  | POST_bolos _ | add_bolo _ =>
      ∃ row, step db (e, r)
             = {| units := units db; calls := calls db;
                  bolos := bolos db ++ [row]; notes := notes db |}
             ∧ bolo_id row = str_uuid (uuid4_first e)
             ∧ (bolo_id row ∉ bolo_id <$> bolos db)
  | POST_notes _ | add_note _ =>
      ∃ row, step db (e, r)
             = {| units := units db; calls := calls db; bolos := bolos db;
                  notes := notes db ++ [row] |}
             ∧ note_id row = str_uuid (uuid4_first e)
             ∧ (note_id row ∉ note_id <$> notes db)
  | _ => True
  end.
Proof.
  unfold step. cbn [fst snd].
  destruct r as [data|id data|data|id|data|id|data|id|data|data|data|data];
    try done; intros _; by_handler_equation e;
    repeat case_match; simplify_eq/=; try done; intros _;
    match goal with
    | H : insert_unit _ _ _ _ _ _ _ = Returned _ |- _ =>
        apply insert_unit_Returned in H
          as (? & ? & ? & ? & _ & _ & _ & _ & ? & _ & ->)
    | H : insert_call _ _ _ _ _ _ _ _ _ _ _ = Returned _ |- _ =>
        apply insert_call_Returned in H
          as (? & ? & ? & ? & ? & ? & ? & _ & _ & _ & _ & _ & _ & _ & ? & _
              & ->)
    | H : insert_bolo _ _ _ _ _ _ _ _ _ _ = Returned _ |- _ =>
        apply insert_bolo_Returned in H
          as (? & ? & ? & ? & ? & ? & ? & _ & _ & _ & _ & _ & _ & _ & ? & ->)
    | H : insert_note _ _ _ _ _ _ _ _ = Returned _ |- _ =>
        apply insert_note_Returned in H
          as (? & ? & ? & ? & ? & _ & _ & _ & _ & _ & ? & ->)
    end; eexists; by repeat split.
Qed.

Ltac invert_statement :=
  match goal with
  | H : insert_unit _ _ _ _ _ _ _ = Returned _ |- _ =>
      apply insert_unit_Returned in H
        as (? & ? & ? & ? & _ & _ & _ & _ & ? & _ & ->)
  | H : update_unit_where_id _ _ _ _ _ = Returned _ |- _ =>
      apply update_unit_where_id_Returned in H as (? & ? & _ & _ & ->)
  | H : insert_call _ _ _ _ _ _ _ _ _ _ _ = Returned _ |- _ =>
      apply insert_call_Returned in H
        as (? & ? & ? & ? & ? & ? & ? & _ & _ & _ & _ & _ & _ & _ & ? & _
            & ->)
  | H : insert_bolo _ _ _ _ _ _ _ _ _ _ = Returned _ |- _ =>
      apply insert_bolo_Returned in H
        as (? & ? & ? & ? & ? & ? & ? & _ & _ & _ & _ & _ & _ & _ & ? & ->)
  | H : insert_note _ _ _ _ _ _ _ _ = Returned _ |- _ =>
      apply insert_note_Returned in H
        as (? & ? & ? & ? & ? & _ & _ & _ & _ & _ & ? & ->)
  end.

(** X3.  A request changes no table but the one of its entity kind: a
    request on Units leaves the Calls, the BOLOs and the Notes as they were,
    and so on for the four kinds, whether it is accepted or rejected. *)
Theorem own_table_only (e : env) (r : request) (db : database) :
  let db' := step db (e, r) in
  match r with
  | POST_units _ | PUT_unit _ _ | add_unit _ =>
      calls db' = calls db ∧ bolos db' = bolos db ∧ notes db' = notes db
  | POST_calls _ | DELETE_call _ | add_call _ =>
      units db' = units db ∧ bolos db' = bolos db ∧ notes db' = notes db
  | POST_bolos _ | DELETE_bolo _ | add_bolo _ =>
      units db' = units db ∧ calls db' = calls db ∧ notes db' = notes db
  | POST_notes _ | DELETE_note _ | add_note _ =>
      units db' = units db ∧ calls db' = calls db ∧ bolos db' = bolos db
  end.
Proof.
  unfold step. cbn [fst snd].
  destruct r; by_handler_equation e; repeat case_match; simplify_eq/=;
    try invert_statement; done.
Qed.

Lemma create_response e r db resp :
  is_create r = true →
  (dispatch e r (start db)).1 = Returned (Some resp) →
  ∃ message,
    resp = Created (str_uuid (uuid4_first e)) message
    ∨ ∃ number, resp = CreatedCall (str_uuid (uuid4_first e)) number message.
Proof.
  destruct r; try done; intros _; by_handler_equation e;
    repeat case_match; simplify_eq/=; try done; intros [= <-]; eauto.
Qed.

(** X4.  An accepted create request, on either channel and for any kind,
    adds one id at the end of the ids of its table and keeps the others in
    place; the new id is the text of the uuid drawn, it was not in the table
    before, and it is the id a route answers with. *)
Theorem create_appends_id (e : env) (r : request) (db : database) :
  is_create r = true →
  accepted (dispatch e r (start db)) = true →
  ids r (step db (e, r)) = ids r db ++ [str_uuid (uuid4_first e)]
  ∧ (str_uuid (uuid4_first e) ∉ ids r db)
  ∧ ∀ resp,
      (dispatch e r (start db)).1 = Returned (Some resp) →
      ∃ message,
        resp = Created (str_uuid (uuid4_first e)) message
        ∨ ∃ number,
            resp = CreatedCall (str_uuid (uuid4_first e)) number message.
Proof.
  intros Hcreate Haccepted.
  pose proof (create_accepted e r db Hcreate Haccepted) as Hrow.
  split; [|split]; [..|intros resp; by apply create_response];
    destruct r; try done; destruct Hrow as (row & Hstep & Hid & Hnew);
    rewrite ?Hstep, <- Hid; simpl; try done; by rewrite fmap_app.
Qed.

(** The theorem at the first Note of an empty database, sent on the push
    channel. *)
Lemma create_appends_id_witness :
  let data : dict := {[ "type" := JStr "General";
                        "content" := JStr "Caller on hold" ]} in
  ids (add_note data) (step empty_db (sample_env, add_note data))
  = ids (add_note data) empty_db ++ [str_uuid (uuid4_first sample_env)]
  ∧ (str_uuid (uuid4_first sample_env) ∉ ids (add_note data) empty_db)
  ∧ ∀ resp,
      (dispatch sample_env (add_note data) (start empty_db)).1
      = Returned (Some resp) →
      ∃ message,
        resp = Created (str_uuid (uuid4_first sample_env)) message
        ∨ ∃ number,
            resp = CreatedCall (str_uuid (uuid4_first sample_env)) number
                     message.
Proof.
  intros data.
  apply (create_appends_id sample_env (add_note data) empty_db);
    [reflexivity|by vm_compute].
Defined.

Lemma step_delete e r id db :
  delete_target r = Some id →
  accepted (dispatch e r (start db)) = true
  ∧ step db (e, r)
    = match r with
      | DELETE_call _ => delete_call_where_id id db
      | DELETE_bolo _ => delete_bolo_where_id id db
      | _ => delete_note_where_id id db
      end.
Proof.
  unfold step. cbn [fst snd].
  by destruct r; try done; intros [= ->]; by_handler_equation e.
Qed.

(** X5.  A delete request is always carried out: afterwards no row of its
    table has the id it names, the rows of other ids are all there in the
    same order, and the same request once more changes nothing. *)
Theorem delete_removes_id (e e' : env) (r : request) (id : string)
    (db : database) :
  delete_target r = Some id →
  accepted (dispatch e r (start db)) = true
  ∧ (id ∉ ids r (step db (e, r)))
  ∧ ids r (step db (e, r)) = filter (fun k => k ≠ id) (ids r db)
  ∧ step (step db (e, r)) (e', r) = step db (e, r).
Proof.
  intros Htarget.
  destruct (step_delete e r id db Htarget) as [Haccepted Hstep].
  destruct (step_delete e' r id (step db (e, r)) Htarget) as [_ Hagain].
  rewrite Hagain, Hstep. clear Hagain Hstep.
  split; [done|].
  destruct r; try done; simpl; rewrite fmap_filter_key;
    (split; [by intros [? _]%list_elem_of_filter|]);
    (split; [done|]);
    unfold delete_call_where_id, delete_bolo_where_id, delete_note_where_id;
    simpl; f_equal; rewrite list_filter_filter; apply list_filter_iff;
    naive_solver.
Qed.

Lemma delete_removes_id_witness :
  let db := {| units := []; calls := [call_c1]; bolos := []; notes := [] |} in
  accepted (dispatch sample_env (DELETE_call "c-1") (start db)) = true
  ∧ ("c-1" ∉ ids (DELETE_call "c-1")
                (step db (sample_env, DELETE_call "c-1")))
  ∧ ids (DELETE_call "c-1") (step db (sample_env, DELETE_call "c-1"))
    = filter (fun k => k ≠ "c-1") (ids (DELETE_call "c-1") db)
  ∧ step (step db (sample_env, DELETE_call "c-1"))
      (later_env, DELETE_call "c-1")
    = step db (sample_env, DELETE_call "c-1").
Proof.
  intros db.
  exact (delete_removes_id sample_env later_env (DELETE_call "c-1") "c-1" db
           eq_refl).
Defined.

(** X6.  Deleting the Call, the BOLO or the Note that an accepted create
    request has just made, by the id drawn at its creation, gives back the
    database as it was before the creation. *)
Theorem delete_undoes_create (e e' : env) (r d : request) (db : database) :
  undo e r = Some d →
  accepted (dispatch e r (start db)) = true →
  step (step db (e, r)) (e', d) = db.
Proof.
  intros Hundo Haccepted.
  assert (is_create r = true) as Hcreate by (by destruct r).
  pose proof (create_accepted e r db Hcreate Haccepted) as Hrow.
  destruct r; try done; simpl in Hundo; simplify_eq;
    destruct Hrow as (row & -> & <- & Hnew);
    unfold step at 1; cbn [fst snd]; by_handler_equation e'; simpl;
    unfold delete_call_where_id, delete_bolo_where_id, delete_note_where_id;
    simpl; rewrite filter_snoc_key by done; apply database_eta.
Qed.

Lemma delete_undoes_create_witness :
  let data : dict := {[ "title" := JStr "Stolen vehicle";
                        "description" := JStr "Blue sedan";
                        "bolo_type" := JStr "Vehicle" ]} in
  step (step empty_db (sample_env, POST_bolos data))
    (later_env, DELETE_bolo (str_uuid (uuid4_first sample_env)))
  = empty_db.
Proof.
  intros data.
  apply (delete_undoes_create sample_env later_env (POST_bolos data));
    [reflexivity|by vm_compute].
Defined.

(** X7.  No statement of the program removes a Unit or changes its id or
    its number: the ids and the numbers of the Units stored at some time
    stay, in order, at the head of those stored at any later time.  A unit
    number that has been given is never free again. *)
Theorem units_never_removed (db db' : database) :
  rtc sql_step db db' →
  unit_id <$> units db `prefix_of` unit_id <$> units db'
  ∧ unit_number <$> units db `prefix_of` unit_number <$> units db'.
Proof.
  induction 1 as [db|db db1 db' Hstep _ [IHid IHnumber]]; [done|].
  assert (unit_id <$> units db `prefix_of` unit_id <$> units db1
          ∧ unit_number <$> units db `prefix_of` unit_number <$> units db1)
    as [Hid Hnumber].
  { destruct (sql_step_units _ _ Hstep)
      as [-> | [(row & -> & _) | (ts & s & l & id & ->)]]; [done|..].
    - rewrite !fmap_app. split; by apply prefix_app_r.
    - rewrite <- !list_fmap_compose. split.
      + erewrite list_fmap_ext; [done|].
        intros i u _. simpl. by case_bool_decide.
      + erewrite list_fmap_ext; [done|].
        intros i u _. simpl. by case_bool_decide. }
  split; etrans; eauto.
Qed.

Lemma units_never_removed_witness :
  let medic : dict := {[ "unit_number" := JStr "M-12";
                         "unit_type" := JStr "Medic" ]} in
  let busy : dict := {[ "status" := JStr "Dispatched" ]} in
  let db := units_only [unit_M12 (Some "Available") None] in
  let db' := run db [(sample_env, POST_units medic);
                     (later_env, PUT_unit "u-1" busy)] in
  rtc sql_step db db'
  ∧ unit_id <$> units db `prefix_of` unit_id <$> units db'
  ∧ unit_number <$> units db `prefix_of` unit_number <$> units db'.
Proof.
  intros medic busy db db'.
  assert (rtc sql_step db db') as H by apply run_sql.
  split; [exact H|]. exact (units_never_removed db db' H).
Defined.

End Rows.

(** ** Updating a Unit *)

Section Updates.

Local Opaque str_uuid select_units.

Lemma step_update_unit e id data db :
  step db (e, PUT_unit id data)
  = match data !! "status" with
    | Some status =>
        match bind_text status,
              bind_text (get data "location" (JStr "")) with
        | Returned s, Returned l =>
            {| units := (fun u => if bool_decide (unit_id u = id)
                                  then set_unit (current_timestamp e) s l u
                                  else u) <$> units db;
               calls := calls db; bolos := bolos db; notes := notes db |}
        | _, _ => db
        end
    | None => db
    end.
Proof.
  unfold step. cbn [fst snd]. by_handler_equation e.
  destruct (data !! "status") as [status|]; [|done].
  unfold update_unit_where_id, mbind, result_bind, mret, result_ret.
  destruct (bind_text status); [|done].
  by destruct (bind_text (get data "location" (JStr ""))).
Qed.

Lemma valid_body_bound id data :
  valid_body (PUT_unit id data) = true →
  ∃ status s l,
    data !! "status" = Some status ∧ bind_text status = Returned s
    ∧ bind_text (get data "location" (JStr "")) = Returned l.
Proof.
  simpl. destruct (data !! "status") as [status|]; [|done].
  intros [[s Hs]%bindable_bind_text [l Hl]%bindable_bind_text]%andb_true_iff.
  eauto 6.
Qed.

(** X8.  An accepted update whose body has no location sets the location
    of the Unit to the empty text, whatever it was, and stamps the row with
    the time of the update: the location is not kept. *)
Theorem update_unit_resets_location (e : env) (id : string) (data : dict)
    (db : database) :
  data !! "location" = None →
  accepted (update_unit e id data (start db)) = true →
  ∀ u, u ∈ units (committed (update_unit e id data (start db)).2) →
       unit_id u = id →
       unit_location u = Some ""
       ∧ last_update u = Some (current_timestamp e).
Proof.
  intros Hlocation. rewrite update_unit_start.
  destruct (data !! "status") as [status|]; [|done].
  destruct (update_unit_where_id _ _ _ _ _) as [db'|exc] eqn:E; [|done].
  intros _ u Hu Hid. simpl in Hu.
  apply update_unit_where_id_Returned in E as (s & l & _ & Hl & ->).
  unfold get in Hl. rewrite Hlocation in Hl. injection Hl as <-.
  simpl in Hu. apply list_elem_of_fmap in Hu as (u0 & -> & _).
  revert Hid. case_bool_decide; [done|]. congruence.
Qed.

Lemma update_unit_resets_location_witness :
  let db := units_only
              [ {| unit_id := "u-1"; unit_number := "M-12";
                   unit_type := "Medic"; unit_status := Some "Available";
                   unit_location := Some "Station 4";
                   assigned_call_id := None;
                   last_update := Some 1709812800%N |} ] in
  let data : dict := {[ "status" := JStr "EnRoute" ]} in
  data !! "location" = None
  ∧ accepted (update_unit later_env "u-1" data (start db)) = true
  ∧ ∀ u, u ∈ units (committed (update_unit later_env "u-1" data
                                 (start db)).2) →
         unit_id u = "u-1" →
         unit_location u = Some ""
         ∧ last_update u = Some (current_timestamp later_env).
Proof.
  intros db data.
  assert (data !! "location" = None) as Hlocation by reflexivity.
  assert (accepted (update_unit later_env "u-1" data (start db)) = true)
    as Haccepted by (by vm_compute).
  split; [exact Hlocation|]. split; [exact Haccepted|].
  exact (update_unit_resets_location later_env "u-1" data db Hlocation
           Haccepted).
Defined.

(** X9.  An accepted update of a Unit leaves nothing of an earlier update
    of the same Unit: the database after both is the database after the
    later one alone. *)
Theorem later_update_wins (e1 e2 : env) (id : string) (d1 d2 : dict)
    (db : database) :
  valid_body (PUT_unit id d2) = true →
  step (step db (e1, PUT_unit id d1)) (e2, PUT_unit id d2)
  = step db (e2, PUT_unit id d2).
Proof.
  intros (status & s & l & Hstatus & Hs & Hl)%valid_body_bound.
  rewrite (step_update_unit e2), Hstatus, Hs, Hl.
  rewrite (step_update_unit e2), Hstatus, Hs, Hl.
  rewrite step_update_unit.
  destruct (d1 !! "status") as [status1|]; [|done].
  destruct (bind_text status1) as [s1|]; [|done].
  destruct (bind_text (get d1 "location" (JStr ""))) as [l1|]; [|done].
  simpl. f_equal. rewrite <- list_fmap_compose. apply list_fmap_ext.
  intros i u _. simpl. by repeat case_bool_decide.
Qed.

Lemma later_update_wins_witness :
  let db := units_only [unit_M12 (Some "Available") None] in
  let d1 : dict := {[ "status" := JStr "Dispatched";
                      "location" := JStr "5th&Main" ]} in
  let d2 : dict := {[ "status" := JStr "OnScene" ]} in
  step (step db (sample_env, PUT_unit "u-1" d1)) (later_env, PUT_unit "u-1" d2)
  = step db (later_env, PUT_unit "u-1" d2).
Proof.
  intros db d1 d2.
  exact (later_update_wins sample_env later_env "u-1" d1 d2 db eq_refl).
Defined.

End Updates.

(** ** Creating a Unit *)

Section NewUnits.

Local Opaque str_uuid select_units.

Lemma new_unit_row e r db :
  accepted (dispatch e r (start db)) = true →
  match r with
  | POST_units _ | add_unit _ =>
      ∃ row status location,
        units (step db (e, r)) = units db ++ [row]
        ∧ bind_text (get (request_data r) "status" (JStr "Available"))
          = Returned status
        ∧ bind_text (get (request_data r) "location" (JStr ""))
          = Returned location
        ∧ unit_status row = status ∧ unit_location row = location
        ∧ assigned_call_id row = None
        ∧ last_update row = Some (current_timestamp e)
  | _ => True
  end.
Proof.
  unfold step. cbn [fst snd].
  destruct r as [data| | | | | | | |data| | |]; try done;
    by_handler_equation e; repeat case_match; simplify_eq/=; try done;
    intros _;
    match goal with
    | H : insert_unit _ _ _ _ _ _ _ = Returned _ |- _ =>
        apply insert_unit_Returned in H
          as (? & ? & s & l & _ & _ & Hs & Hl & _ & _ & ->)
    end; eexists _, s, l; by repeat split.
Qed.

(** X10.  A Unit created, on either channel, by a request that gives
    neither status nor location is stored with status 'Available', an empty
    location, no assigned call, and the time of its creation. *)
Theorem new_unit_defaults (e : env) (r : request) (data : dict)
    (db : database) :
  r = POST_units data ∨ r = add_unit data →
  data !! "status" = None →
  data !! "location" = None →
  accepted (dispatch e r (start db)) = true →
  ∃ row,
    units (step db (e, r)) = units db ++ [row]
    ∧ unit_status row = Some "Available"
    ∧ unit_location row = Some ""
    ∧ assigned_call_id row = None
    ∧ last_update row = Some (current_timestamp e).
Proof.
  intros Hr Hstatus Hlocation Haccepted.
  pose proof (new_unit_row e r db Haccepted) as Hrow.
  destruct Hr as [-> | ->];
    destruct Hrow as (row & s & l & Hunits & Hs & Hl & <- & <- & ? & ?);
    simpl in Hs, Hl; unfold get in Hs, Hl;
    rewrite Hstatus in Hs; rewrite Hlocation in Hl;
    unfold bind_text in Hs, Hl; simpl in Hs, Hl;
    injection Hs as Hs; injection Hl as Hl; by exists row.
Qed.

Lemma new_unit_defaults_witness :
  let data : dict := {[ "number" := JStr "M-12"; "type" := JStr "Medic" ]} in
  ∃ row,
    units (step empty_db (sample_env, add_unit data)) = units empty_db ++ [row]
    ∧ unit_status row = Some "Available"
    ∧ unit_location row = Some ""
    ∧ assigned_call_id row = None
    ∧ last_update row = Some (current_timestamp sample_env).
Proof.
  intros data.
  apply (new_unit_defaults sample_env (add_unit data) data empty_db);
    [by right|reflexivity|reflexivity|by vm_compute].
Defined.

(** X11.  A status given as JSON null is not replaced by 'Available': the
    Unit is stored with a NULL status. *)
Theorem null_status_is_stored (e : env) (r : request) (data : dict)
    (db : database) :
  r = POST_units data ∨ r = add_unit data →
  data !! "status" = Some JNull →
  accepted (dispatch e r (start db)) = true →
  ∃ row, units (step db (e, r)) = units db ++ [row] ∧ unit_status row = None.
Proof.
  intros Hr Hstatus Haccepted.
  pose proof (new_unit_row e r db Haccepted) as Hrow.
  destruct Hr as [-> | ->];
    destruct Hrow as (row & s & l & Hunits & Hs & _ & <- & _);
    simpl in Hs; unfold get in Hs; rewrite Hstatus in Hs;
    unfold bind_text in Hs; simpl in Hs; injection Hs as Hs; by exists row.
Qed.

Lemma null_status_is_stored_witness :
  let data : dict := {[ "unit_number" := JStr "E-7";
                        "unit_type" := JStr "Engine";
                        "status" := JNull ]} in
  ∃ row, units (step empty_db (sample_env, POST_units data))
         = units empty_db ++ [row]
         ∧ unit_status row = None.
Proof.
  intros data.
  apply (null_status_is_stored sample_env (POST_units data) data empty_db);
    [by left|reflexivity|by vm_compute].
Defined.

End NewUnits.

(** ** What the clients are told *)


Section Events.

Local Opaque insert_unit select_unit_id_where_number str_uuid select_units
  select_calls select_bolos select_notes make_call_number.

(** X13.  In the trace of any request, an error goes to the caller alone,
    and every other event (snapshot or notice) goes to all clients. *)
Theorem errors_stay_private (e : env) (r : request) (db : database) :
  Forall (fun ef =>
            match ef with
            | Emit to _ (Error _) => to = Caller
            | Emit to _ _ => to = Everyone
            | Commit _ => True
            end) (trace (dispatch e r (start db)).2).
Proof.
  destruct (dispatch_cases e r db)
    as [(resp & db' & -> & _) | [(exc & ->) | (m & ->)]]; simpl.
  - constructor; [done|]. apply Forall_app. split.
    + destruct r; simpl; repeat constructor.
    + destruct r; simpl; repeat constructor.
  - constructor.
  - repeat constructor.
Qed.




End Events.

(** ** No check across tables *)

Section Locality.

Ltac unfold_stmt :=
  unfold insert_unit, insert_call, insert_bolo, insert_note,
    update_unit_where_id, select_unit_id_where_number, not_null, unique;
  unfold mbind, result_bind, mret, result_ret.

Lemma insert_unit_local ts id number type status location db1 db2 :
  units db1 = units db2 →
  agree_on_table units (insert_unit ts id number type status location db1)
    (insert_unit ts id number type status location db2).
Proof.
  intros H. unfold_stmt. rewrite H.
  by repeat case_match; simplify_eq/=; try rewrite H.
Qed.

Lemma update_unit_local ts status location id db1 db2 :
  units db1 = units db2 →
  agree_on_table units (update_unit_where_id ts status location id db1)
    (update_unit_where_id ts status location id db2).
Proof.
  intros H. unfold_stmt. rewrite H.
  by repeat case_match; simplify_eq/=; try rewrite H.
Qed.

Lemma select_unit_local number db1 db2 :
  units db1 = units db2 →
  select_unit_id_where_number number db1
  = select_unit_id_where_number number db2.
Proof. intros H. unfold_stmt. by rewrite H. Qed.

Lemma insert_call_local ts id number priority type location description
    status name phone db1 db2 :
  calls db1 = calls db2 →
  agree_on_table calls
    (insert_call ts id number priority type location description status name
       phone db1)
    (insert_call ts id number priority type location description status name
       phone db2).
Proof.
  intros H. unfold_stmt. rewrite H.
  by repeat case_match; simplify_eq/=; try rewrite H.
Qed.

Lemma insert_bolo_local ts id ttl description type priority status expires
    creator db1 db2 :
  bolos db1 = bolos db2 →
  agree_on_table bolos
    (insert_bolo ts id ttl description type priority status expires creator
       db1)
    (insert_bolo ts id ttl description type priority status expires creator
       db2).
Proof.
  intros H. unfold_stmt. rewrite H.
  by repeat case_match; simplify_eq/=; try rewrite H.
Qed.

Lemma insert_note_local ts id call unit type text creator db1 db2 :
  notes db1 = notes db2 →
  agree_on_table notes (insert_note ts id call unit type text creator db1)
    (insert_note ts id call unit type text creator db2).
Proof.
  intros H. unfold_stmt. rewrite H.
  by repeat case_match; simplify_eq/=; try rewrite H.
Qed.

Local Opaque insert_unit insert_call insert_bolo insert_note
  update_unit_where_id select_unit_id_where_number str_uuid make_call_number
  select_units select_calls select_bolos select_notes.

Ltac by_locality db1 db2 H :=
  repeat match goal with
         | |- context [insert_unit ?ts ?id ?n ?t ?s ?l db1] =>
             pose proof (insert_unit_local ts id n t s l db1 db2 H);
             destruct (insert_unit ts id n t s l db1),
               (insert_unit ts id n t s l db2)
         | |- context [update_unit_where_id ?ts ?s ?l ?id db1] =>
             pose proof (update_unit_local ts s l id db1 db2 H);
             destruct (update_unit_where_id ts s l id db1),
               (update_unit_where_id ts s l id db2)
         | |- context [insert_call ?ts ?id ?n ?p ?t ?l ?d ?s ?nm ?ph db1] =>
             pose proof (insert_call_local ts id n p t l d s nm ph db1 db2 H);
             destruct (insert_call ts id n p t l d s nm ph db1),
               (insert_call ts id n p t l d s nm ph db2)
         | |- context [insert_bolo ?ts ?id ?t ?d ?ty ?p ?s ?ex ?c db1] =>
             pose proof (insert_bolo_local ts id t d ty p s ex c db1 db2 H);
             destruct (insert_bolo ts id t d ty p s ex c db1),
               (insert_bolo ts id t d ty p s ex c db2)
         | |- context [insert_note ?ts ?id ?c ?u ?ty ?tx ?cr db1] =>
             pose proof (insert_note_local ts id c u ty tx cr db1 db2 H);
             destruct (insert_note ts id c u ty tx cr db1),
               (insert_note ts id c u ty tx cr db2)
         end.

(** X15.  The outcome of a request depends on no table but its own: run on
    two databases that hold the same rows in that table, it gives the same
    response or the same exception, is accepted in both or rejected in both,
    and leaves the same rows in that table.  Nothing is looked up across
    tables: in particular a Note is stored with the call and unit ids it is
    given, whether or not such a Call or Unit exists. *)
Theorem same_table_same_outcome (e : env) (r : request) (db1 db2 : database) :
  same_table r db1 db2 →
  (dispatch e r (start db1)).1 = (dispatch e r (start db2)).1
  ∧ accepted (dispatch e r (start db1)) = accepted (dispatch e r (start db2))
  ∧ same_table r (step db1 (e, r)) (step db2 (e, r)).
Proof.
  unfold step. cbn [fst snd].
  destruct r as [data|id data|data|id|data|id|data|id|data|data|data|data];
    cbn [same_table]; intros H; by_handler_equation e;
    repeat match goal with
           | |- context [select_unit_id_where_number ?n db1] =>
               rewrite (select_unit_local n db1 db2 H)
           | |- context [match ?d !! ?k with _ => _ end] =>
               destruct (d !! k)
           | |- context [if ?b then _ else _] => destruct b
           | |- context [select_unit_id_where_number ?n db2] =>
               destruct (select_unit_id_where_number n db2) as [[?|]|]
           end;
    by_locality db1 db2 H; simplify_eq/=; try done;
    unfold delete_call_where_id, delete_bolo_where_id, delete_note_where_id;
    simpl; rewrite ?H; try done.
Qed.

(** The theorem at a Note on a Call that does not exist: it is stored in the
    empty database as it is in one that holds the Call. *)
Lemma same_table_same_outcome_witness :
  let data : dict := {[ "note_type" := JStr "General";
                        "content" := JStr "Caller on hold";
                        "call_id" := JStr "c-1" ]} in
  let db := {| units := []; calls := [call_c1]; bolos := []; notes := [] |} in
  same_table (POST_notes data) empty_db db
  ∧ (dispatch sample_env (POST_notes data) (start empty_db)).1
    = (dispatch sample_env (POST_notes data) (start db)).1
  ∧ accepted (dispatch sample_env (POST_notes data) (start empty_db))
    = accepted (dispatch sample_env (POST_notes data) (start db))
  ∧ same_table (POST_notes data)
      (step empty_db (sample_env, POST_notes data))
      (step db (sample_env, POST_notes data)).
Proof.
  intros data db.
  assert (same_table (POST_notes data) empty_db db) as H by reflexivity.
  split; [exact H|].
  exact (same_table_same_outcome sample_env (POST_notes data) empty_db db H).
Defined.

End Locality.

(** ** More on Calls *)

Section Calls.

Local Opaque str_uuid make_call_number select_units.

(** X16.  When the call number made for a new Call is the number of a stored
    Call, the creation is rejected, on either channel, and the database is
    left as it was: no other number is tried. *)
Theorem call_number_collision (e : env) (r : request) (data : dict)
    (db : database) :
  r = POST_calls data ∨ r = add_call data →
  make_call_number (now e) (uuid4_second e) ∈ (call_number <$> calls db) →
  accepted (dispatch e r (start db)) = false ∧ step db (e, r) = db.
Proof.
  unfold step. cbn [fst snd].
  intros [-> | ->] Hstored; by_handler_equation e;
    repeat match goal with
           | |- context [match ?d !! ?k with _ => _ end] =>
               destruct (d !! k)
           end; try done;
    destruct (insert_call _ _ _ _ _ _ _ _ _ _ _) as [db'|exc] eqn:E;
    try done;
    apply insert_call_Returned in E
      as (? & ? & ? & ? & ? & ? & ? & _ & _ & _ & _ & _ & _ & _ & _ & Hnew
          & _);
    done.
Qed.

Lemma call_number_collision_witness :
  let data : dict := {[ "priority" := JStr "Low"; "type" := JStr "Noise";
                        "location" := JStr "12 Elm St" ]} in
  let db := {| units := []; calls := [call_c1]; bolos := []; notes := [] |} in
  make_call_number (now later_env) (uuid4_second later_env)
    ∈ (call_number <$> calls db)
  ∧ accepted (dispatch later_env (add_call data) (start db)) = false
  ∧ step db (later_env, add_call data) = db.
Proof.
  intros data db.
  assert (make_call_number (now later_env) (uuid4_second later_env)
            ∈ (call_number <$> calls db)) as H by (vm_compute; left).
  split; [exact H|].
  exact (call_number_collision later_env (add_call data) data db
           (or_intror eq_refl) H).
Defined.

(** The first row of a listing by creation time, newest first, is the row
    that is newer than all the others. *)
Lemma newest_first {A} (created_at : A → option timestamp) (rows : list A)
    (row : A) :
  Forall (fun x => ¬ cell_le (created_at row) (created_at x)) rows →
  head (order_by (by_created_at_desc created_at) (rows ++ [row])) = Some row.
Proof.
  intros Holder.
  pose proof (order_by_sorted (by_created_at_desc created_at) (rows ++ [row]))
    as Hsorted.
  pose proof (order_by_perm (by_created_at_desc created_at) (rows ++ [row]))
    as Hperm.
  destruct (order_by _ _) as [|h t].
  { apply Permutation_nil_l in Hperm. by destruct rows. }
  simpl. f_equal.
  apply StronglySorted_inv in Hsorted as [_ Hhead].
  assert (h ∈ rows ++ [row]) as Hh by (rewrite <- Hperm; left).
  assert (row ∈ h :: t) as Hrow
    by (rewrite Hperm; apply elem_of_app; right; left).
  apply elem_of_app in Hh as [Hh | ->%list_elem_of_singleton]; [|done].
  apply elem_of_cons in Hrow as [-> | Hrow]; [done|].
  rewrite Forall_forall in Holder, Hhead.
  destruct (Holder h Hh). by apply Hhead.
Qed.

(** X17.  A Call created at a time later than the creation time of every
    stored Call is the first of the listing of Calls that follows. *)
Theorem new_call_listed_first (e : env) (r : request) (data : dict)
    (db : database) :
  r = POST_calls data ∨ r = add_call data →
  Forall (fun c => ¬ cell_le (Some (current_timestamp e)) (call_created_at c))
    (calls db) →
  accepted (dispatch e r (start db)) = true →
  ∃ row,
    head (select_calls (step db (e, r))) = Some row
    ∧ call_id row = str_uuid (uuid4_first e)
    ∧ call_number row = make_call_number (now e) (uuid4_second e).
Proof.
  unfold step. cbn [fst snd].
  intros [-> | ->] Holder; by_handler_equation e;
    repeat match goal with
           | |- context [match ?d !! ?k with _ => _ end] =>
               destruct (d !! k)
           end; try done;
    destruct (insert_call _ _ _ _ _ _ _ _ _ _ _) as [db'|exc] eqn:E;
    try done; intros _;
    apply insert_call_Returned in E
      as (? & ? & ? & ? & ? & ? & ? & _ & _ & _ & _ & _ & _ & _ & _ & _ & ->);
    eexists; (split; [apply newest_first; exact Holder|]); done.
Qed.

Lemma new_call_listed_first_witness :
  let data : dict := {[ "priority" := JStr "Low"; "call_type" := JStr "Noise";
                        "location" := JStr "12 Elm St" ]} in
  let db := {| units := []; calls := [call_c1]; bolos := []; notes := [] |} in
  let e := {| uuid4_first := uuid4_first later_env;
              uuid4_second := 0x0a1b2c3d000040008000000000000001%N;
              now := now later_env;
              current_timestamp := current_timestamp later_env |} in
  ∃ row,
    head (select_calls (step db (e, POST_calls data))) = Some row
    ∧ call_id row = str_uuid (uuid4_first e)
    ∧ call_number row = make_call_number (now e) (uuid4_second e).
Proof.
  intros data db e.
  apply (new_call_listed_first e (POST_calls data) data db);
    [by left| |by vm_compute].
  repeat constructor. vm_compute. intros H. exact (H eq_refl).
Defined.

End Calls.

(** ** Start-up *)

Section StartUp.

Lemma insert_or_ignore_codes rows c :
  code <$> insert_or_ignore_status_code rows c
  = if bool_decide (c.1.1 ∈ code <$> rows) then code <$> rows
    else (code <$> rows) ++ [c.1.1].
Proof.
  unfold insert_or_ignore_status_code. case_bool_decide; [done|].
  by rewrite fmap_app.
Qed.

(** The INSERT OR IGNORE of a code that is stored changes nothing. *)
Lemma insert_or_ignore_stored rows c :
  c.1.1 ∈ (code <$> rows) → insert_or_ignore_status_code rows c = rows.
Proof.
  intros H. unfold insert_or_ignore_status_code.
  by rewrite bool_decide_eq_true_2.
Qed.

Lemma executemany_prefix rows params :
  rows `prefix_of` executemany insert_or_ignore_status_code rows params.
Proof.
  revert rows. induction params as [|c params IH]; intros rows; [done|].
  unfold executemany. simpl. etrans; [|apply IH].
  unfold insert_or_ignore_status_code. case_bool_decide; [done|].
  by apply prefix_app_r.
Qed.

Lemma executemany_stores rows params c :
  c ∈ params →
  c.1.1 ∈ (code <$> executemany insert_or_ignore_status_code rows params).
Proof.
  revert rows. induction params as [|c' params IH]; intros rows Hc.
  { by apply elem_of_nil in Hc. }
  unfold executemany. simpl.
  apply elem_of_cons in Hc as [<- | Hc]; [|by apply IH].
  assert (c.1.1 ∈ (code <$> insert_or_ignore_status_code rows c)) as Hin.
  { rewrite insert_or_ignore_codes. case_bool_decide; [done|].
    apply elem_of_app. right. left. }
  destruct (executemany_prefix (insert_or_ignore_status_code rows c) params)
    as [added Hadded].
  unfold executemany in Hadded. rewrite Hadded, fmap_app.
  apply elem_of_app. by left.
Qed.

Lemma executemany_all_stored rows params :
  Forall (fun c => c.1.1 ∈ (code <$> rows)) params →
  executemany insert_or_ignore_status_code rows params = rows.
Proof.
  induction 1 as [|c params Hc _ IH]; [done|].
  unfold executemany. simpl. by rewrite insert_or_ignore_stored.
Qed.

Lemma executemany_unique rows params :
  NoDup (code <$> rows) →
  NoDup (code <$> executemany insert_or_ignore_status_code rows params).
Proof.
  revert rows. induction params as [|c params IH]; intros rows Hrows; [done|].
  unfold executemany. simpl. apply IH.
  rewrite insert_or_ignore_codes. case_bool_decide; [done|].
  by apply NoDup_snoc_fresh.
Qed.

Local Opaque executemany default_codes.

(** X18.  [init_db] may be run again at every start: on a file it has been
    through, it changes nothing. *)
Theorem init_db_idempotent (file : database_file) :
  init_db (init_db file) = init_db file.
Proof.
  unfold init_db. simpl. f_equal. f_equal.
  apply executemany_all_stored, Forall_forall.
  intros c Hc. by apply executemany_stores.
Qed.

(** X19.  [init_db] loses nothing: the rows of the four entity tables are
    kept; the status codes stored before stay as they are, in place, and are
    not overwritten by the default of the same code; every default code is
    stored afterwards; and if the codes were pairwise distinct they still
    are. *)
Theorem init_db_keeps_rows (file : database_file) :
  let before := create_table_if_not_exists (status_codes_table file) in
  let after := create_table_if_not_exists (status_codes_table (init_db file)) in
  entity_tables (init_db file) = entity_tables file
  ∧ before `prefix_of` after
  ∧ Forall (fun c => c.1.1 ∈ (code <$> after)) default_codes
  ∧ (NoDup (code <$> before) → NoDup (code <$> after)).
Proof.
  simpl. split; [done|]. split; [apply executemany_prefix|]. split.
  - apply Forall_forall. intros c Hc. by apply executemany_stores.
  - apply executemany_unique.
Qed.

Global Instance by_category_code_total : Total by_category_code.
Proof.
  intros a b. unfold by_category_code.
  destruct (decide (category a = category b)) as [Heq|Hne].
  - rewrite !bool_decide_eq_true_2 by done. apply text_le_total.
  - rewrite !bool_decide_eq_false_2 by done. apply text_le_total.
Qed.

Lemma text_le_antisym a b : text_le a b → text_le b a → a = b.
Proof. apply String.leb_antisym. Qed.

Global Instance by_category_code_trans : Transitive by_category_code.
Proof.
  intros a b c. unfold by_category_code.
  destruct (decide (category a = category b)) as [Hab|Hab];
    destruct (decide (category b = category c)) as [Hbc|Hbc];
    destruct (decide (category a = category c)) as [Hac|Hac];
    rewrite ?(bool_decide_eq_true_2 _ Hab), ?(bool_decide_eq_true_2 _ Hbc),
      ?(bool_decide_eq_true_2 _ Hac), ?(bool_decide_eq_false_2 _ Hab),
      ?(bool_decide_eq_false_2 _ Hbc), ?(bool_decide_eq_false_2 _ Hac);
    intros H1 H2; try congruence; try (by etrans).
  destruct Hab. apply text_le_antisym; [done|]. by rewrite Hac.
Qed.

(** X20.  The listing of the status codes is the table sorted by category
    and, within a category, by code: every stored code is listed once, and
    a row comes before every row that follows it in that order. *)
Theorem status_codes_order (file : database_file) :
  StronglySorted by_category_code (get_status_codes file)
  ∧ get_status_codes file
    ≡ₚ create_table_if_not_exists (status_codes_table file).
Proof.
  split; [apply order_by_sorted; apply _|apply order_by_perm].
Qed.

End StartUp.

(** ** Identifiers as text *)

Section Identifiers.

(** X21.  The call number made on a given day depends on the uuid drawn for
    it only through its 16 leading bits: two uuids that agree on them give the
    same call number, so a day has at most 65536 call numbers. *)
Theorem call_number_leading_bits (d : datetime) (u v : N) :
  ((u mod 2 ^ 128) / 2 ^ 112 = (v mod 2 ^ 128) / 2 ^ 112)%N →
  make_call_number d u = make_call_number d v.
Proof.
  intros H. unfold make_call_number.
  by rewrite !str_uuid_leading, H.
Qed.

Lemma call_number_leading_bits_witness :
  ((uuid4_second sample_env mod 2 ^ 128) / 2 ^ 112
   = (uuid4_second later_env mod 2 ^ 128) / 2 ^ 112)%N
  ∧ make_call_number (now sample_env) (uuid4_second sample_env)
    = make_call_number (now sample_env) (uuid4_second later_env).
Proof.
  assert ((uuid4_second sample_env mod 2 ^ 128) / 2 ^ 112
          = (uuid4_second later_env mod 2 ^ 128) / 2 ^ 112)%N as H
    by (by vm_compute).
  split; [exact H|].
  exact (call_number_leading_bits (now sample_env) _ _ H).
Defined.

(** A text of 32 characters is the five groups [str(u)] is made of. *)
Lemma groups_of_32 (h : string) :
  String.length h = 32 →
  h = substring 0 8 h +:+ substring 8 4 h +:+ substring 12 4 h
      +:+ substring 16 4 h +:+ substring 20 12 h.
Proof.
  intros Hlen. rewrite <- (substring_whole 32 h Hlen) at 1.
  change 32 with (8 + (4 + (4 + (4 + 12)))).
  by rewrite !substring_split.
Qed.

(** X22.  [str] is one-to-one on uuids: two 128-bit values with the same
    text are the same value, so two different uuids never give the same
    id. *)
Theorem str_uuid_inj (u v : N) :
  str_uuid u = str_uuid v → (u mod 2 ^ 128 = v mod 2 ^ 128)%N.
Proof.
  intros Heq.
  apply (hex_fixed_inj 32); [by apply N.mod_lt..|].
  revert Heq. unfold str_uuid.
  generalize (length_hex_fixed 32 (u mod 2 ^ 128))
    (length_hex_fixed 32 (v mod 2 ^ 128)).
  generalize (hex_fixed 32 (u mod 2 ^ 128)) (hex_fixed 32 (v mod 2 ^ 128)).
  intros hu hv Hu Hv Heq.
  rewrite (groups_of_32 hu Hu), (groups_of_32 hv Hv).
  apply append_inj in Heq as [-> Heq];
    [|by rewrite !length_substring by lia].
  apply (append_inj "-" "-") in Heq as [_ Heq]; [|done].
  apply append_inj in Heq as [-> Heq];
    [|by rewrite !length_substring by lia].
  apply (append_inj "-" "-") in Heq as [_ Heq]; [|done].
  apply append_inj in Heq as [-> Heq];
    [|by rewrite !length_substring by lia].
  apply (append_inj "-" "-") in Heq as [_ Heq]; [|done].
  apply append_inj in Heq as [-> Heq];
    [|by rewrite !length_substring by lia].
  apply (append_inj "-" "-") in Heq as [_ ->]; [|done].
  done.
Qed.

Lemma str_uuid_inj_witness :
  str_uuid 5 = str_uuid (5 + 2 ^ 128)
  ∧ (5 mod 2 ^ 128 = (5 + 2 ^ 128) mod 2 ^ 128)%N.
Proof.
  assert (str_uuid 5 = str_uuid (5 + 2 ^ 128)) as H by (by vm_compute).
  split; [exact H|]. exact (str_uuid_inj 5 (5 + 2 ^ 128) H).
Defined.

End Identifiers.
